(** * EarTrainerLoop: the music-theory model, the timed sequencing engine
      and the program generator of [eartrainerloop.py], embedded in Rocq.

    Python objects become records, one [Module] per class; methods that can
    raise return in an exception monad; methods that mutate their object or
    read the clock run in a state-and-exception monad over the object and the
    outside world. *)

From Stdlib Require Import ZArith QArith Qround String Ascii List Lia DecimalString.
From stdpp Require Import base option list strings gmap.
Import ListNotations.
Local Open Scope string_scope.
Local Open Scope Z_scope.

(** ** Configuration values

    What [toml.load] hands to the program: integers, strings and arrays of
    them. (Floats, booleans, dates and arrays of arrays are left out.) *)

Inductive atom : Type :=
| AInt (n : Z)
| AStr (s : string).

Inductive value : Type :=
| Atom (a : atom)
| Array (l : list atom).

Coercion Atom : atom >-> value.

(** ** Python exceptions and the exception monad *)

Inductive exn : Type :=
| KeyError (key : atom)
| IndexError
| ValueError
| TypeError
| AttributeError.

Definition result (A : Type) : Type := exn + A.

Definition ok {A} (a : A) : result A := inr a.
Definition raise {A} (e : exn) : result A := inl e.

Definition rbind {A B} (m : result A) (f : A -> result B) : result B :=
  match m with
  | inl e => inl e
  | inr a => f a
  end.

Declare Scope result_scope.
Delimit Scope result_scope with res.
Notation "'let?' x ':=' m 'in' k" := (rbind m (fun x => k))
  (at level 10, x pattern, m at level 100, k at level 200) : result_scope.
Local Open Scope result_scope.

(** ** Python built-ins used by the program *)

Module Py.

(** [d[key]] on a dict. *)
Definition getitem {V} (d : gmap string V) (key : string) : result V :=
  match d !! key with
  | Some v => ok v
  | None => raise (KeyError (AStr key))
  end.

(** The position [l[i]] refers to in a list of length [len]: a negative
    index counts from the end. *)
Definition position (len : nat) (i : Z) : result nat :=
  let n := Z.of_nat len in
  let j := if i <? 0 then i + n else i in
  if (j <? 0) || (n <=? j) then raise IndexError else ok (Z.to_nat j).

(** [l[i]] on a list. *)
Definition index_list {A} (l : list A) (i : Z) : result A :=
  let? j := position (length l) i in
  match l !! j with
  | Some a => ok a
  | None => raise IndexError
  end.

(** [l.index(x)]: the position of the first element equal to [x]. *)
Fixpoint index (l : list string) (x : string) : result Z :=
  match l with
  | [] => raise ValueError
  | y :: l' =>
      if String.eqb y x then ok 0
      else let? i := index l' x in ok (i + 1)
  end.

(** [str(n)] for an int. *)
Definition str_int (n : Z) : string := NilZero.string_of_int (Z.to_int n).

(** [s.replace(old, new)] where [old] is the one-character string [c]. *)
Fixpoint replace (c : ascii) (new : string) (s : string) : string :=
  match s with
  | EmptyString => EmptyString
  | String a s' =>
      if Ascii.eqb a c then new +:+ replace c new s'
      else String a (replace c new s')
  end.

(** [s.split(sep)] where [sep] is the one-character string [c]: the
    pieces between the separators, empty pieces included. *)
Fixpoint split (c : ascii) (s : string) : list string :=
  match s with
  | EmptyString => [EmptyString]
  | String a s' =>
      if Ascii.eqb a c then EmptyString :: split c s'
      else match split c s' with
           | [] => [String a EmptyString]
           | p :: ps => String a p :: ps
           end
  end.

(** [for x in l: s = body(s, x)], stopping at the first exception. *)
Fixpoint for_ {A S} (l : list A) (s : S) (body : S -> A -> result S)
  : result S :=
  match l with
  | [] => ok s
  | x :: l' => let? s' := body s x in for_ l' s' body
  end.

(** [str(a)] and [f'{a}']. *)
Definition str (a : atom) : string :=
  match a with
  | AInt n => str_int n
  | AStr s => s
  end.

(** Truth value: [0], [''] and [[]] are false. *)
Definition truthy (v : value) : bool :=
  match v with
  | Atom (AInt n) => negb (n =? 0)
  | Atom (AStr s) => negb (String.eqb s "")
  | Array l => negb (Nat.eqb (length l) 0)
  end.

(** [v or []]. *)
Definition or_empty (v : value) : value :=
  if truthy v then v else Array [].

(** The items a [for] loop over [v] visits: the elements of a list, the
    characters of a string; an int is not iterable. *)
Definition iter (v : value) : result (list atom) :=
  match v with
  | Array l => ok l
  | Atom (AStr s) =>
      ok (map (fun c => AStr (String c EmptyString)) (list_ascii_of_string s))
  | Atom (AInt _) => raise TypeError
  end.

(** [v[i]]: an element of a list, a character of a string; an int is not
    subscriptable. *)
Definition subscript (v : value) (i : Z) : result atom :=
  match v with
  | Array l => index_list l i
  | Atom (AStr s) =>
      let? c := index_list (list_ascii_of_string s) i in
      ok (AStr (String c EmptyString))
  | Atom (AInt _) => raise TypeError
  end.

(** [int(x)] of a float, here a rational: truncation towards zero. *)
Definition int (x : Q) : Z := Z.quot (Qnum x) (Z.pos (Qden x)).

(** [e > d] between the value of [elapsed_ms] ([None] or an int) and a
    configured value: only two ints compare. *)
Definition gt (e : option Z) (d : value) : result bool :=
  match e, d with
  | Some e, Atom (AInt d) => ok (d <? e)
  | _, _ => raise TypeError
  end.

(** [range(start, stop)]. *)
Definition range (start stop : Z) : list Z :=
  map (fun i => start + Z.of_nat i) (seq 0 (Z.to_nat (stop - start))).

(** [sep.join(l)]. *)
Fixpoint join (sep : string) (l : list string) : string :=
  match l with
  | [] => EmptyString
  | x :: l' =>
      match l' with
      | [] => x
      | _ :: _ => x +:+ sep +:+ join sep l'
      end
  end.

(** [s.count(c)] for a one-character [c]. *)
Fixpoint count (c : ascii) (s : string) : nat :=
  match s with
  | EmptyString => 0%nat
  | String a s' => if Ascii.eqb a c then S (count c s') else count c s'
  end.

End Py.

(** ** [class Sound] *)

Module Sound.

Record t : Type := mk { filenames : list string; sequential : bool }.

Definition cleaned_filename (filename : string) : string :=
  Py.replace "b" "flat" (Py.replace "#" "sh" filename).

(** [Sound(filename)] with a single [str]. *)
Definition init_str (filename : string) (seq : bool) : t :=
  {| filenames := [cleaned_filename filename]; sequential := seq |}.

(** [Sound(filenames)] with a list. *)
Definition init_list (names : list string) (seq : bool) : t :=
  {| filenames := map cleaned_filename names; sequential := seq |}.

End Sound.

(** ** [class Identity] *)

Module Identity.

Record t : Type := mk { name : string }.

Definition init (identity : string) : t := {| name := identity |}.

(** [self.sound], set once in [__init__] from [name]. *)
Definition sound (i : t) : Sound.t :=
  Sound.init_list
    (map (fun part => "./samples/identity/" +:+ part +:+ ".wav")
         (Py.split " " (name i)))
    true.

End Identity.

(** ** [class Note] *)

Module Note.

Definition NOTES : list string :=
  ["C"; "C#"; "D"; "D#"; "E"; "F"; "F#"; "G"; "G#"; "A"; "A#"; "B"].

(** The two stored attributes; [identity] and [sound] are set once in
    [__init__] from them and never reassigned, so they are functions. *)
Record t : Type := mk { note_name : string; octave : Z }.

Definition init (note_name : string) (octave : Z) : t :=
  {| note_name := note_name; octave := octave |}.

Definition name (n : t) : string := note_name n +:+ Py.str_int (octave n).

Definition identity (n : t) : Identity.t := Identity.init (note_name n).

Definition sound (n : t) : Sound.t :=
  Sound.init_str ("./samples/note/" +:+ name n +:+ ".wav") false.

Definition add_semitones (self : t) (semitones : Z) : result t :=
  let? idx := Py.index NOTES (note_name self) in
  let new_note_idx := idx + semitones in
  let new_note_octave := octave self in
  let '(new_note_idx, new_note_octave) :=
    if Z.of_nat (length NOTES) <=? new_note_idx
    then (new_note_idx - Z.of_nat (length NOTES), new_note_octave + 1)
    else (new_note_idx, new_note_octave) in
  let? new_note_name := Py.index_list NOTES new_note_idx in
  ok (init new_note_name new_note_octave).

End Note.

(** ** [class Interval] *)

Module Interval.

Definition SEMITONE_MAP : gmap string Z :=
  list_to_map
    [("unison", 0); ("min 2nd", 1); ("maj 2nd", 2); ("min 3rd", 3);
     ("maj 3rd", 4); ("4th", 5); ("dim 5th", 6); ("5th", 7);
     ("min 6th", 8); ("maj 6th", 9); ("min 7th", 10); ("maj 7th", 11);
     ("octave", 12)].

Record t : Type :=
  mk { name : string; first_note : Note.t; second_note : Note.t }.

(** The property [semitones], which reads [self.name] only. *)
Definition semitones (name : string) : result Z :=
  Py.getitem SEMITONE_MAP name.

(** [Note.add_interval], placed here because it reads the interval. *)
Definition add_interval (note : Note.t) (interval_name : string)
  : result Note.t :=
  let? s := semitones interval_name in
  Note.add_semitones note s.

Definition init (interval : string) (root_note : Note.t) : result t :=
  let? second := add_interval root_note interval in
  ok {| name := interval; first_note := root_note; second_note := second |}.

Definition identity (i : t) : Identity.t := Identity.init (name i).

End Interval.


(** ** [class Chord] *)

Module Chord.

Definition INTERVAL_MAP : gmap string (list string) :=
  list_to_map
    [("maj", ["maj 3rd"; "5th"]);
     ("min", ["min 3rd"; "5th"]);
     ("dim", ["min 3rd"; "dim 5th"])].

(** The stored attributes; [sound] and [identity] are set once in
    [__init__] from them. *)
Record t : Type :=
  mk { chord_name : string; octave : Z; notes : list Note.t }.

Definition init (chord_name : string) (octave : Z) : result t :=
  let? (root_note_name, chord_type) :=
    match Py.split " " chord_name with
    | [a; b] => ok (a, b)
    | _ => raise ValueError
    end in
  let root_note := Note.init root_note_name octave in
  let? intervals := Py.getitem INTERVAL_MAP chord_type in
  let? notes :=
    Py.for_ intervals [root_note] (fun notes interval_name =>
      let? interval := Interval.init interval_name root_note in
      let? note := Interval.add_interval root_note (Interval.name interval) in
      ok (notes ++ [note])%list) in
  ok {| chord_name := chord_name; octave := octave; notes := notes |}.

Definition name (c : t) : string := chord_name c +:+ Py.str_int (octave c).

Definition sound (c : t) : Sound.t :=
  Sound.init_list
    (map (fun note => "./samples/note/" +:+ Note.name note +:+ ".wav")
         (notes c))
    false.

Definition identity (c : t) : Identity.t := Identity.init (chord_name c).

End Chord.


(** ** The outside world and the state monad

    [time.time()] returns the successive readings of a clock, taken as exact
    rationals (seconds). [Sound.play] hands the sound to the audio backend,
    which loads, mixes and plays its files: the hand-over is recorded in
    [played], what the backend does with it is not part of the model.
    [DEBUG] is [False], so the methods print nothing. *)

Record World : Type :=
  mkWorld { clock : nat -> Q; ticks : nat; played : list Sound.t }.

(** A method of an object of type [Obj]: it may change the object and the
    world, and returns or raises. What it changed before raising stays. *)
Definition M (Obj A : Type) : Type :=
  Obj * World -> result A * (Obj * World).

Definition ret {Obj A} (a : A) : M Obj A := fun st => (ok a, st).

Definition bind {Obj A B} (m : M Obj A) (f : A -> M Obj B) : M Obj B :=
  fun st =>
    match m st with
    | (inl e, st') => (inl e, st')
    | (inr a, st') => f a st'
    end.

Definition lift {Obj A} (r : result A) : M Obj A := fun st => (r, st).

Definition self {Obj} : M Obj Obj := fun st => (ok (fst st), st).

Definition update {Obj} (f : Obj -> Obj) : M Obj unit :=
  fun st => (ok tt, (f (fst st), snd st)).

(** One more reading taken from the clock. *)
Definition tick (w : World) : World :=
  {| clock := clock w; ticks := S (ticks w); played := played w |}.

(** One more sound handed to the audio backend. *)
Definition emit (sound : Sound.t) (w : World) : World :=
  {| clock := clock w; ticks := ticks w; played := played w ++ [sound] |}.

Definition time_time {Obj} : M Obj Q :=
  fun st => (ok (clock (snd st) (ticks (snd st))), (fst st, tick (snd st))).

Definition play {Obj} (sound : Sound.t) : M Obj unit :=
  fun st => (ok tt, (fst st, emit sound (snd st))).

Declare Scope method_scope.
Delimit Scope method_scope with method.
Notation "x <- m ;; k" := (bind m (fun x => k))
  (at level 100, m at next level, right associativity) : method_scope.
Notation "m ;; k" := (bind m (fun _ => k))
  (at level 100, right associativity) : method_scope.
Local Open Scope method_scope.

(** ** [class ProgramStep] and its three subclasses *)

Module ProgramStep.

(** Which class the object has, with the attribute the subclass adds. *)
Inductive kind : Type :=
| Base
| PlayNote (note : Note.t)
| PlayChord (chord : Chord.t)
| PlayIdentity (identity : Identity.t).

Record t : Type :=
  mk { entity : kind;
       is_running : bool;
       start_time : option Q;
       duration : value }.

Definition init (k : kind) (duration : value) : t :=
  {| entity := k; is_running := false; start_time := None;
     duration := duration |}.

Definition set_is_running (b : bool) (s : t) : t :=
  {| entity := entity s; is_running := b; start_time := start_time s;
     duration := duration s |}.

Definition set_start_time (o : option Q) (s : t) : t :=
  {| entity := entity s; is_running := is_running s; start_time := o;
     duration := duration s |}.

(** [start]: the base method, then the subclass plays its sound. *)
Definition start : M t unit :=
  update (set_is_running true) ;;
  now <- time_time ;;
  update (set_start_time (Some now)) ;;
  s <- self ;;
  match entity s with
  | Base => ret tt
  | PlayNote note => play (Note.sound note)
  | PlayChord chord => play (Chord.sound chord)
  | PlayIdentity identity => play (Identity.sound identity)
  end.

(** [elapsed_ms]: [not self.start_time] holds of [None] and of [0.0]. *)
Definition elapsed_ms : M t (option Z) :=
  s <- self ;;
  match start_time s with
  | None => ret None
  | Some t0 =>
      if Qeq_bool t0 0 then ret None
      else now <- time_time ;; ret (Some (Py.int ((now - t0) * 1000)))
  end.

Definition stop : M t unit :=
  update (set_is_running false) ;;
  update (set_start_time None).

Definition is_complete (s : t) : bool := negb (is_running s).

Definition step : M t unit :=
  e <- elapsed_ms ;;
  s <- self ;;
  b <- lift (Py.gt e (duration s)) ;;
  if b then stop else ret tt.

End ProgramStep.

(** ** [class Program] *)

Module Program.

(** [steps] holds the step objects, each at one position of the list;
    [current_step] is a reference to one of them, kept as its position. *)
Record t : Type :=
  mk { name : string;
       steps : list ProgramStep.t;
       is_running : bool;
       current_step_idx : Z;
       current_step : option nat }.

Definition init (name : string) (steps : list ProgramStep.t) : t :=
  {| name := name; steps := steps; is_running := false;
     current_step_idx := -1; current_step := None |}.

Definition set_steps (l : list ProgramStep.t) (p : t) : t :=
  {| name := name p; steps := l; is_running := is_running p;
     current_step_idx := current_step_idx p;
     current_step := current_step p |}.

Definition set_is_running (b : bool) (p : t) : t :=
  {| name := name p; steps := steps p; is_running := b;
     current_step_idx := current_step_idx p;
     current_step := current_step p |}.

Definition set_current_step_idx (i : Z) (p : t) : t :=
  {| name := name p; steps := steps p; is_running := is_running p;
     current_step_idx := i; current_step := current_step p |}.

Definition set_current_step (o : option nat) (p : t) : t :=
  {| name := name p; steps := steps p; is_running := is_running p;
     current_step_idx := current_step_idx p; current_step := o |}.

(** Run a method of [self.current_step] on the object it refers to; on
    [None] the attribute lookup raises. *)
Definition on_current_step {A} (m : M ProgramStep.t A) : M t A :=
  fun st =>
    let p := fst st in
    match current_step p with
    | None => (raise AttributeError, st)
    | Some i =>
        match steps p !! i with
        | None => (raise AttributeError, st)
        | Some s =>
            let out := m (s, snd st) in
            (fst out,
             (set_steps (<[i := fst (snd out)]> (steps p)) p,
              snd (snd out)))
        end
    end.

(** [self.current_step = self.steps[i]]. *)
Definition assign_current_step (i : Z) : M t unit :=
  p <- self ;;
  j <- lift (Py.position (length (steps p)) i) ;;
  update (set_current_step (Some j)).

Definition start : M t unit :=
  update (set_current_step_idx 0) ;;
  assign_current_step 0 ;;
  on_current_step ProgramStep.start ;;
  update (set_is_running true).

Definition stop : M t unit :=
  update (set_is_running false) ;;
  update (set_current_step_idx 0) ;;
  update (set_current_step None).

Definition is_complete (p : t) : bool := negb (is_running p).

Definition step : M t unit :=
  on_current_step ProgramStep.step ;;
  c <- on_current_step (s <- self ;; ret (ProgramStep.is_complete s)) ;;
  if c : bool then
    p <- self ;;
    update (set_current_step_idx (current_step_idx p + 1)) ;;
    p <- self ;;
    if Z.of_nat (length (steps p)) <=? current_step_idx p then stop
    else
      assign_current_step (current_step_idx p) ;;
      on_current_step ProgramStep.start
  else ret tt.

End Program.

(** ** [class ConfigFile] *)

Module ConfigFile.

(** [self.config]: the tables of the file, each a dict of values. *)
Abbreviation t := (gmap string (gmap string value)).

Definition settings (config : t) : result (gmap string value) :=
  Py.getitem config "settings".

Definition octave_range (config : t) : result (list Z) :=
  let? s := settings config in
  let? r := Py.getitem s "octave_range" in
  let? start := Py.subscript r 0 in
  let? s := settings config in
  let? r := Py.getitem s "octave_range" in
  let? end_ := Py.subscript r 1 in
  match start, end_ with
  | AInt start, AInt end_ => ok (Py.range start (end_ + 1))
  | _, _ => raise TypeError
  end.

(** [self.config['programs'][family] or []]. *)
Definition programs_of (config : t) (family : string) : result value :=
  let? programs := Py.getitem config "programs" in
  let? v := Py.getitem programs family in
  ok (Py.or_empty v).

(** [Note(note_name, octave)] on a configured item: building the
    identity calls [split], which only a [str] has. *)
Definition make_note (note_name : atom) (octave : Z) : result Note.t :=
  match note_name with
  | AStr s => ok (Note.init s octave)
  | AInt _ => raise AttributeError
  end.

(** [Interval(interval_name, root_note)] on a configured item: an int is
    a key [SEMITONE_MAP] does not have. *)
Definition make_interval (interval_name : atom) (root_note : Note.t)
  : result Interval.t :=
  match interval_name with
  | AStr s => Interval.init s root_note
  | AInt n => raise (KeyError (AInt n))
  end.

Definition read_note_programs (config : t) : result (list Program.t) :=
  let? note_programs := programs_of config "notes" in
  let? s := settings config in
  let? note_duration := Py.getitem s "note_duration" in
  let? s := settings config in
  let? identity_duration := Py.getitem s "identity_duration" in
  let programs := [] in
  let? names := Py.iter note_programs in
  Py.for_ names programs (fun programs note_name =>
    let? octaves := octave_range config in
    Py.for_ octaves programs (fun programs octave =>
      let? note := make_note note_name octave in
      let program :=
        Program.init ("Note - " +:+ Note.name note)
          [ProgramStep.init (ProgramStep.PlayNote note) note_duration;
           ProgramStep.init (ProgramStep.PlayIdentity (Note.identity note))
             identity_duration] in
      ok (programs ++ [program])%list)).

Definition read_interval_programs (config : t) : result (list Program.t) :=
  let? interval_programs := programs_of config "intervals" in
  let? s := settings config in
  let? note_duration := Py.getitem s "note_duration" in
  let? s := settings config in
  let? identity_duration := Py.getitem s "identity_duration" in
  let programs := [] in
  let? names := Py.iter interval_programs in
  Py.for_ names programs (fun programs interval_name =>
    Py.for_ Note.NOTES programs (fun programs note_name =>
      let? octaves := octave_range config in
      Py.for_ octaves programs (fun programs octave =>
        let root_note := Note.init note_name octave in
        let? interval := make_interval interval_name root_note in
        let program :=
          Program.init
            ("Interval - " +:+ Interval.name interval +:+ " ("
               +:+ Note.name root_note +:+ ")")
            [ProgramStep.init
               (ProgramStep.PlayNote (Interval.first_note interval))
               note_duration;
             ProgramStep.init
               (ProgramStep.PlayNote (Interval.second_note interval))
               note_duration;
             ProgramStep.init
               (ProgramStep.PlayIdentity (Interval.identity interval))
               identity_duration] in
        ok (programs ++ [program])%list))).

Definition read_chord_programs (config : t) : result (list Program.t) :=
  let? chord_programs := programs_of config "chords" in
  let? s := settings config in
  let? note_duration := Py.getitem s "note_duration" in
  let? s := settings config in
  let? identity_duration := Py.getitem s "identity_duration" in
  let programs := [] in
  let? types := Py.iter chord_programs in
  Py.for_ types programs (fun programs chord_type =>
    Py.for_ Note.NOTES programs (fun programs note_name =>
      let chord_name := note_name +:+ " " +:+ Py.str chord_type in
      let? octaves := octave_range config in
      Py.for_ octaves programs (fun programs octave =>
        let? chord := Chord.init chord_name octave in
        let program :=
          Program.init ("Chord - " +:+ Chord.name chord)
            [ProgramStep.init (ProgramStep.PlayChord chord) note_duration;
             ProgramStep.init
               (ProgramStep.PlayIdentity (Chord.identity chord))
               identity_duration] in
        ok (programs ++ [program])%list))).

Definition read_programs (config : t) : result (list Program.t) :=
  let? notes := read_note_programs config in
  let? intervals := read_interval_programs config in
  let? chords := read_chord_programs config in
  ok ((notes ++ intervals) ++ chords)%list.

End ConfigFile.

(** ** [class ProgramRunner] *)

Module ProgramRunner.

(** [programs] holds the program objects of the catalogue, each at one
    position; [current_program] is a reference to one of them, kept as
    its position. The runner is the only user of the random source and of
    the standard output, which are kept with it: [entropy] gives the raw
    draws of the generator, [draws] counts those taken, [printed] is what
    [print] has written, line by line. *)
Record t : Type :=
  mk { programs : list Program.t;
       current_program : option nat;
       entropy : nat -> nat;
       draws : nat;
       printed : list string }.

(** [ProgramRunner()], with the loaded configuration file as argument. *)
Definition init (config : ConfigFile.t) (entropy : nat -> nat) : result t :=
  let? programs := ConfigFile.read_programs config in
  ok {| programs := programs; current_program := None; entropy := entropy;
        draws := 0; printed := [] |}.

Definition set_programs (l : list Program.t) (r : t) : t :=
  {| programs := l; current_program := current_program r;
     entropy := entropy r; draws := draws r; printed := printed r |}.

Definition set_current_program (o : option nat) (r : t) : t :=
  {| programs := programs r; current_program := o;
     entropy := entropy r; draws := draws r; printed := printed r |}.

(** [random.randint(a, b)]: an int from [a] to [b], both included; an
    empty range raises. *)
Definition randint (a b : Z) : M t Z :=
  fun st =>
    let r := fst st in
    if b <? a then (raise ValueError, st)
    else
      (ok (a + Z.of_nat (entropy r (draws r)) mod (b - a + 1)),
       ({| programs := programs r; current_program := current_program r;
           entropy := entropy r; draws := S (draws r);
           printed := printed r |},
        snd st)).

(** [print(line)]. *)
Definition print (line : string) : M t unit :=
  update (fun r =>
    {| programs := programs r; current_program := current_program r;
       entropy := entropy r; draws := draws r;
       printed := printed r ++ [line] |}).

(** The program returned is one of the list: a reference to it. *)
Definition get_random_program : M t nat :=
  r <- self ;;
  idx <- randint 0 (Z.of_nat (length (programs r)) - 1) ;;
  lift (Py.position (length (programs r)) idx).

(** Run a method of [self.current_program] on the object it refers to. *)
Definition on_current_program {A} (m : M Program.t A) : M t A :=
  fun st =>
    let r := fst st in
    match current_program r with
    | None => (raise AttributeError, st)
    | Some i =>
        match programs r !! i with
        | None => (raise AttributeError, st)
        | Some p =>
            let out := m (p, snd st) in
            (fst out,
             (set_programs (<[i := fst (snd out)]> (programs r)) r,
              snd (snd out)))
        end
    end.

(** One turn of the [while True] loop of [run]. *)
Definition run_turn : M t unit :=
  r <- self ;;
  match current_program r with
  | None =>
      j <- get_random_program ;;
      update (set_current_program (Some j)) ;;
      on_current_program Program.start ;;
      name <- on_current_program (p <- self ;; ret (Program.name p)) ;;
      print ("* " +:+ name)
  | Some _ => ret tt
  end ;;
  on_current_program Program.step ;;
  c <- on_current_program (p <- self ;; ret (Program.is_complete p)) ;;
  if c : bool then update (set_current_program None) else ret tt.

(** [run] loops for ever unless a turn raises: its first [n] turns. *)
Fixpoint run (n : nat) : M t unit :=
  match n with
  | O => ret tt
  | S n' => run_turn ;; run n'
  end.

End ProgramRunner.

(** ** The canonicalization as the specification words it *)

Module Spec.

(** Every ['#'] becomes the sharp marker, every ['b'] the flat marker,
    any other character stays. *)
Definition marker (c : ascii) : string :=
  if Ascii.eqb c "#" then "sh"
  else if Ascii.eqb c "b" then "flat"
  else String c EmptyString.

Fixpoint canonicalize (s : string) : string :=
  match s with
  | EmptyString => EmptyString
  | String c s' => marker c +:+ canonicalize s'
  end.

End Spec.

(** ** Terms for the statements

    Names for what the properties below speak of: the chord qualities,
    the sounds a step plays, a two-step program, clocks and
    configurations to run the code on. *)

(** The chord qualities, which are the keys of [Chord.INTERVAL_MAP]. *)
Definition QUALITIES : list string := ["maj"; "min"; "dim"].

(** What [start] hands to the audio backend, by the class of the step. *)
Definition sounds_of (k : ProgramStep.kind) : list Sound.t :=
  match k with
  | ProgramStep.Base => []
  | ProgramStep.PlayNote note => [Note.sound note]
  | ProgramStep.PlayChord chord => [Chord.sound chord]
  | ProgramStep.PlayIdentity identity => [Identity.sound identity]
  end.

Definition two_steps (name : string) (k0 k1 : ProgramStep.kind) : Program.t :=
  Program.init name
    [ProgramStep.init k0 (AInt 100); ProgramStep.init k1 (AInt 200)].

(** A clock read every [gap] seconds, first at second 1. *)
Definition every (gap : Q) (n : nat) : Q := 1 + inject_Z (Z.of_nat n) * gap.

Definition world_at (f : nat -> Q) : World :=
  {| clock := f; ticks := 0; played := [] |}.

(** A drill, and worlds in which the clock is read every 300 ms and every
    100 ms. *)
Definition drill : Program.t :=
  two_steps "drill" ProgramStep.Base
    (ProgramStep.PlayNote (Note.init "C#" 4)).

Definition slow_world : World := world_at (every (3 # 10)).

Definition fast_world : World := world_at (every (1 # 10)).

(** The drill run to completion: started, then polled twice. *)
Definition finished : Program.t * World :=
  snd ((Program.start ;; Program.step ;; Program.step) (drill, slow_world)).

(** Two readings of the clock less than a millisecond apart. *)
Definition quick_world : World := world_at (every (1 # 10000)).

(** The number of octaves in the inclusive range from [a] to [b]. *)
Definition octaves (a b : Z) : nat := Z.to_nat (b - a + 1).

(** A configuration over octaves 3 and 4. *)
Definition demo_settings : gmap string value :=
  {[ "octave_range" := Array [AInt 3; AInt 4];
     "note_duration" := Atom (AInt 1000);
     "identity_duration" := Atom (AInt 1500) ]}.

Definition demo_programs : gmap string value :=
  {[ "notes" := Array (AStr <$> ["C"; "F#"]);
     "intervals" := Array (AStr <$> ["5th"]);
     "chords" := Array (AStr <$> []) ]}.

Definition demo_config : ConfigFile.t :=
  {[ "settings" := demo_settings; "programs" := demo_programs ]}.

(** The demo configuration without its [notes] section. *)
Definition no_notes_config : ConfigFile.t :=
  {[ "settings" := demo_settings;
     "programs" := delete "notes" demo_programs ]}.

(** A step as [start] leaves it at clock reading [t], and as [stop]
    leaves it. *)
Definition started (s : ProgramStep.t) (t : Q) : ProgramStep.t :=
  {| ProgramStep.entity := ProgramStep.entity s;
     ProgramStep.is_running := true;
     ProgramStep.start_time := Some t;
     ProgramStep.duration := ProgramStep.duration s |}.

Definition stopped (s : ProgramStep.t) : ProgramStep.t :=
  {| ProgramStep.entity := ProgramStep.entity s;
     ProgramStep.is_running := false;
     ProgramStep.start_time := None;
     ProgramStep.duration := ProgramStep.duration s |}.








(** A program as the generator builds it: never started, with at least
    one step, each step never started and lasting one of the two
    configured durations. *)
Definition fresh_step (nd idur : value) (s : ProgramStep.t) : Prop :=
  s = ProgramStep.init (ProgramStep.entity s) (ProgramStep.duration s) /\
  (ProgramStep.duration s = nd \/ ProgramStep.duration s = idur).

Definition fresh_program (nd idur : value) (p : Program.t) : Prop :=
  p = Program.init (Program.name p) (Program.steps p) /\
  Program.steps p <> [] /\
  Forall (fresh_step nd idur) (Program.steps p).

(** The program the generator builds for a note name and an octave. *)
Definition note_program (nd idur : value) (name : string) (o : Z)
  : Program.t :=
  Program.init ("Note - " +:+ name +:+ Py.str_int o)
    [ProgramStep.init (ProgramStep.PlayNote (Note.init name o)) nd;
     ProgramStep.init (ProgramStep.PlayIdentity (Identity.init name)) idur].

(** A configuration whose octave range is empty and whose sections list
    names the music model does not know. *)
Definition reversed_settings : gmap string value :=
  {[ "octave_range" := Array [AInt 5; AInt 4];
     "note_duration" := Atom (AInt 1000);
     "identity_duration" := Atom (AInt 1500) ]}.

Definition bogus_programs : gmap string value :=
  {[ "notes" := Array [AInt 7];
     "intervals" := Array [AStr "5th"; AStr "9th"; AInt 0];
     "chords" := Array [AStr "min"; AStr "aug"] ]}.

Definition reversed_config : ConfigFile.t :=
  {[ "settings" := reversed_settings; "programs" := bogus_programs ]}.

(** The same sections over octaves 3 and 4. *)
Definition bogus_config : ConfigFile.t :=
  {[ "settings" := demo_settings; "programs" := bogus_programs ]}.

(** A configuration with empty sections and no octave range. *)
Definition rangeless_settings : gmap string value :=
  {[ "note_duration" := Atom (AInt 1000);
     "identity_duration" := Atom (AInt 1500) ]}.

Definition empty_programs : gmap string value :=
  {[ "notes" := Array []; "intervals" := Array []; "chords" := Array [] ]}.

Definition rangeless_config : ConfigFile.t :=
  {[ "settings" := rangeless_settings; "programs" := empty_programs ]}.

(** A configuration with empty sections and empty settings. *)
Definition unset_config : ConfigFile.t :=
  {[ "settings" := ∅; "programs" := empty_programs ]}.


Definition idle_runner : ProgramRunner.t :=
  {| ProgramRunner.programs := [];
     ProgramRunner.current_program := None;
     ProgramRunner.entropy := fun n => (7 * n)%nat;
     ProgramRunner.draws := 0;
     ProgramRunner.printed := [] |}.

(** * Properties *)

(** ** Lists and tables *)

Lemma rbind_ok {A B} (a : A) (f : A -> result B) : rbind (ok a) f = f a.
Proof. reflexivity. Qed.

Lemma index_lookup (l : list string) (x : string) (i : Z) :
  Py.index l x = ok i ->
  0 <= i < Z.of_nat (length l) /\ l !! Z.to_nat i = Some x.
Proof.
  revert i. induction l as [|y l IH]; intros i H; simpl in H.
  - discriminate.
  - destruct (String.eqb_spec y x) as [->|Hne].
    + injection H as <-. simpl. split; [lia | reflexivity].
    + destruct (Py.index l x) as [e|j] eqn:Hj; simpl in H; [discriminate|].
      injection H as <-. destruct (IH j eq_refl) as [Hr Hl].
      split; [simpl; lia|].
      replace (Z.to_nat (j + 1)) with (S (Z.to_nat j)) by lia.
      exact Hl.
Qed.

Lemma index_elem_of (l : list string) (x : string) :
  x ∈ l -> exists i, Py.index l x = ok i.
Proof.
  induction l as [|y l IH]; intros H.
  - inversion H.
  - simpl. destruct (String.eqb_spec y x) as [->|Hne]; [eauto|].
    apply elem_of_cons in H as [->|H]; [congruence|].
    destruct (IH H) as [i ->]. simpl. eauto.
Qed.

Lemma position_in_range (len : nat) (i : Z) :
  0 <= i < Z.of_nat len -> Py.position len i = ok (Z.to_nat i).
Proof.
  intros H. unfold Py.position.
  destruct (Z.ltb_spec i 0); [lia|].
  destruct (Z.ltb_spec i 0); [lia|].
  destruct (Z.leb_spec (Z.of_nat len) i); [lia|]. reflexivity.
Qed.

Lemma index_list_in_range {A} (l : list A) (i : Z) :
  0 <= i < Z.of_nat (length l) ->
  exists a, l !! Z.to_nat i = Some a /\ Py.index_list l i = ok a.
Proof.
  intros H. unfold Py.index_list. rewrite position_in_range by exact H.
  simpl. destruct (lookup_lt_is_Some_2 l (Z.to_nat i)) as [a Ha]; [lia|].
  exists a. rewrite Ha. split; reflexivity.
Qed.

Lemma length_range (a b : Z) : length (Py.range a b) = Z.to_nat (b - a).
Proof. unfold Py.range. rewrite length_map, length_seq. reflexivity. Qed.

(** ** Pitch arithmetic *)

Lemma semitones_bounds (name : string) (s : Z) :
  Interval.semitones name = ok s -> 0 <= s <= 12.
Proof.
  unfold Interval.semitones, Py.getitem.
  destruct (Interval.SEMITONE_MAP !! name) as [v|] eqn:H; [|discriminate].
  intros [= <-]. apply elem_of_list_to_map_2 in H.
  repeat (apply elem_of_cons in H as [[= _ ->]|H]; [lia|]).
  inversion H.
Qed.

(** [add_semitones] written with [mod] and [/]. *)
Lemma add_semitones_mod (p : string) (o n i : Z) :
  Py.index Note.NOTES p = ok i ->
  0 <= n <= 12 ->
  exists q,
    Note.NOTES !! Z.to_nat ((i + n) mod 12) = Some q /\
    Note.add_semitones (Note.init p o) n = ok (Note.init q (o + (i + n) / 12)).
Proof.
  intros Hi Hn. destruct (index_lookup _ _ _ Hi) as [Hr _].
  change (Z.of_nat (length Note.NOTES)) with 12 in Hr.
  unfold Note.add_semitones. cbn [Note.note_name Note.init Note.octave].
  rewrite Hi, rbind_ok.
  change (Z.of_nat (length Note.NOTES)) with 12.
  destruct (Z.leb_spec 12 (i + n)) as [Hge|Hlt]; cbv beta iota zeta.
  - assert ((i + n) mod 12 = i + n - 12 /\ (i + n) / 12 = 1) as [-> ->].
    { split; [symmetry; apply (Z.mod_unique (i + n) 12 1) |
              symmetry; apply (Z.div_unique (i + n) 12 1 (i + n - 12))]; lia. }
    destruct (index_list_in_range Note.NOTES (i + n - 12)) as (q & Hq & ->).
    { change (Z.of_nat (length Note.NOTES)) with 12. lia. }
    exists q. split; [exact Hq | reflexivity].
  - assert ((i + n) mod 12 = i + n /\ (i + n) / 12 = 0) as [-> ->].
    { split; [apply Z.mod_small | apply Z.div_small]; lia. }
    destruct (index_list_in_range Note.NOTES (i + n)) as (q & Hq & ->).
    { change (Z.of_nat (length Note.NOTES)) with 12. lia. }
    exists q. split; [exact Hq|]. rewrite rbind_ok, Z.add_0_r. reflexivity.
Qed.

(** C1: for a canonical pitch class [p] at index [i] and an offset
    [0 <= n <= 12], [Note(p, o).add_semitones(n)] returns the note whose
    pitch class is the name at index [(i + n) mod 12] and whose octave is
    [o + floor((i + n) / 12)]; [Note("B", 3).add_semitones(1)] is
    [Note("C", 4)]. *)
Theorem add_semitones_spec :
  (forall (p : string) (o n : Z),
      p ∈ Note.NOTES -> 0 <= n <= 12 ->
      exists i q,
        Py.index Note.NOTES p = ok i /\
        Note.NOTES !! Z.to_nat ((i + n) mod 12) = Some q /\
        Note.add_semitones (Note.init p o) n
        = ok (Note.init q (o + (i + n) / 12))) /\
  Note.add_semitones (Note.init "B" 3) 1 = ok (Note.init "C" 4).
Proof.
  split; [|reflexivity].
  intros p o n Hp Hn. destruct (index_elem_of _ _ Hp) as [i Hi].
  destruct (add_semitones_mod p o n i Hi Hn) as (q & Hq & Hadd).
  exists i, q. auto.
Qed.

Lemma add_semitones_spec_witness :
  exists i q,
    Py.index Note.NOTES "G#" = ok i /\
    Note.NOTES !! Z.to_nat ((i + 7) mod 12) = Some q /\
    Note.add_semitones (Note.init "G#" 5) 7 = ok (Note.init q (5 + (i + 7) / 12)).
Proof.
  apply (proj1 add_semitones_spec "G#" 5 7).
  - apply list_elem_of_In. simpl. tauto.
  - lia.
Defined.

(** ** Chords *)

Lemma qualities_are_keys (q : string) :
  q ∈ QUALITIES <-> is_Some (Chord.INTERVAL_MAP !! q).
Proof.
  split.
  - intros Hq. repeat (apply elem_of_cons in Hq as [->|Hq]; [by eexists|]).
    inversion Hq.
  - intros [l Hl]. apply elem_of_list_to_map_2 in Hl.
    repeat (apply elem_of_cons in Hl as [[= -> _]|Hl];
            [apply list_elem_of_In; simpl; tauto|]).
    inversion Hl.
Qed.

Lemma chord_init_notes (q p : string) (o : Z) :
  q ∈ QUALITIES -> p ∈ Note.NOTES ->
  exists i1 i2 n1 n2,
    Chord.INTERVAL_MAP !! q = Some [i1; i2] /\
    Interval.add_interval (Note.init p o) i1 = ok n1 /\
    Interval.add_interval (Note.init p o) i2 = ok n2 /\
    Chord.init (p +:+ " " +:+ q) o
    = ok {| Chord.chord_name := p +:+ " " +:+ q;
            Chord.octave := o;
            Chord.notes := [Note.init p o; n1; n2] |}.
Proof.
  intros Hq Hp.
  repeat (apply elem_of_cons in Hq as [->|Hq]);
    try (by inversion Hq);
    repeat (apply elem_of_cons in Hp as [->|Hp]);
    try (by inversion Hp);
    (eexists _, _, _, _; split; [reflexivity|];
     split; [reflexivity|]; split; reflexivity).
Qed.

(** C2: for every quality among maj, min and dim, every canonical root and
    every octave, the chord's notes are the root, then the root plus the
    quality's first interval, then the root plus its second interval;
    [Chord("C maj", 4)] has the notes C4, E4, G4 and [Chord("A min", 3)]
    the notes A3, C4, E4. *)
Theorem chord_notes_root_third_fifth :
  (forall (q p : string) (o : Z),
      q ∈ QUALITIES -> p ∈ Note.NOTES ->
      exists i1 i2 n1 n2,
        Chord.INTERVAL_MAP !! q = Some [i1; i2] /\
        Interval.add_interval (Note.init p o) i1 = ok n1 /\
        Interval.add_interval (Note.init p o) i2 = ok n2 /\
        Chord.init (p +:+ " " +:+ q) o
        = ok {| Chord.chord_name := p +:+ " " +:+ q;
                Chord.octave := o;
                Chord.notes := [Note.init p o; n1; n2] |}) /\
  Chord.init "C maj" 4
  = ok {| Chord.chord_name := "C maj";
          Chord.octave := 4;
          Chord.notes := [Note.init "C" 4; Note.init "E" 4; Note.init "G" 4] |} /\
  Chord.init "A min" 3
  = ok {| Chord.chord_name := "A min";
          Chord.octave := 3;
          Chord.notes := [Note.init "A" 3; Note.init "C" 4; Note.init "E" 4] |}.
Proof.
  split; [exact chord_init_notes|]. split; reflexivity.
Qed.

Lemma chord_notes_root_third_fifth_witness :
  exists i1 i2 n1 n2,
    Chord.INTERVAL_MAP !! "dim" = Some [i1; i2] /\
    Interval.add_interval (Note.init "A#" 2) i1 = ok n1 /\
    Interval.add_interval (Note.init "A#" 2) i2 = ok n2 /\
    Chord.init "A# dim" 2
    = ok {| Chord.chord_name := "A# dim";
            Chord.octave := 2;
            Chord.notes := [Note.init "A#" 2; n1; n2] |}.
Proof.
  apply (proj1 chord_notes_root_third_fifth "dim" "A#" 2);
    apply list_elem_of_In; simpl; tauto.
Defined.

(** ** Sample file names *)

Lemma replace_flat_sh (s : string) :
  Py.replace "b" "flat" ("sh" +:+ s) = "sh" +:+ Py.replace "b" "flat" s.
Proof. reflexivity. Qed.

(** C8: [cleaned_filename] is defined on every string and is the
    character-by-character substitution of the specification: every ['#']
    becomes ["sh"] and every ['b'] becomes ["flat"], wherever it stands. *)
Theorem cleaned_filename_canonicalize (s : string) :
  Sound.cleaned_filename s = Spec.canonicalize s.
Proof.
  unfold Sound.cleaned_filename.
  induction s as [|c s IH]; [reflexivity|].
  cbn [Py.replace Spec.canonicalize]. unfold Spec.marker.
  destruct (Ascii.eqb_spec c "#") as [->|Hsharp].
  - rewrite replace_flat_sh, IH. reflexivity.
  - cbn [Py.replace]. destruct (Ascii.eqb c "b"); rewrite IH; reflexivity.
Qed.

(** ** Program steps *)

(** Unfold the monad of methods and project the pairs it builds. *)
Ltac run_method :=
  unfold bind, self, update, lift, ret, time_time, play, ok, raise;
  cbn [fst snd rbind Py.gt].

Section StepFacts.

Variables (s : ProgramStep.t) (w : World).

Lemma step_not_started :
  ProgramStep.start_time s = None ->
  ProgramStep.step (s, w) = (raise TypeError, (s, w)).
Proof.
  intros H. unfold ProgramStep.step, ProgramStep.elapsed_ms. run_method.
  rewrite H. reflexivity.
Qed.

Lemma step_started (t0 : Q) (d : Z) :
  ProgramStep.start_time s = Some t0 ->
  Qeq_bool t0 0 = false ->
  ProgramStep.duration s = Atom (AInt d) ->
  ProgramStep.step (s, w)
  = (ok tt,
     (if d <? Py.int ((clock w (ticks w) - t0) * 1000)
      then ProgramStep.set_start_time None
             (ProgramStep.set_is_running false s)
      else s,
      tick w)).
Proof.
  intros Ht Hz Hd.
  unfold ProgramStep.step, ProgramStep.elapsed_ms, ProgramStep.stop.
  run_method. rewrite Ht, Hz. run_method. rewrite Hd. run_method.
  destruct (d <? Py.int ((clock w (ticks w) - t0) * 1000)); reflexivity.
Qed.

End StepFacts.

(** C9: in every state of a step and of a program [is_complete] is the
    negation of [is_running]; a freshly built step or program, never
    started, reports [is_complete] true, as a stopped one does. *)
Theorem is_complete_not_is_running :
  (forall s : ProgramStep.t,
      ProgramStep.is_complete s = negb (ProgramStep.is_running s)) /\
  (forall p : Program.t,
      Program.is_complete p = negb (Program.is_running p)) /\
  (forall k d, ProgramStep.is_complete (ProgramStep.init k d) = true) /\
  (forall name steps, Program.is_complete (Program.init name steps) = true) /\
  (forall s w,
      ProgramStep.is_complete (fst (snd (ProgramStep.stop (s, w)))) = true) /\
  (forall p w,
      Program.is_complete (fst (snd (Program.stop (p, w)))) = true).
Proof. repeat split. Qed.

(** C10: polling a step that was never started, or one whose start time
    [stop] has cleared, raises: [elapsed_ms] is [None] there and the
    comparison with the duration is a [TypeError]; nothing is changed. *)
Theorem step_without_start_raises :
  (forall k d w,
      ProgramStep.step (ProgramStep.init k d, w)
      = (raise TypeError, (ProgramStep.init k d, w))) /\
  (forall s w,
      let stopped := snd (ProgramStep.stop (s, w)) in
      ProgramStep.step stopped = (raise TypeError, stopped)).
Proof.
  split.
  - intros k d w. apply step_not_started. reflexivity.
  - intros s w stopped. destruct stopped as [s' w'] eqn:E.
    apply step_not_started.
    change s' with (fst (s', w')). rewrite <- E. reflexivity.
Qed.

(** ** Running a method inside a sequence *)

Lemma bind_ok {Obj A B} (m : M Obj A) (f : A -> M Obj B) st a st' :
  m st = (ok a, st') -> bind m f st = f a st'.
Proof. intros H. unfold bind. rewrite H. reflexivity. Qed.

Lemma bind_raise {Obj A B} (m : M Obj A) (f : A -> M Obj B) st e st' :
  m st = (raise e, st') -> bind m f st = (raise e, st').
Proof. intros H. unfold bind. rewrite H. reflexivity. Qed.

Lemma on_current_step_run {A} (m : M ProgramStep.t A) p w i s r s' w' :
  Program.current_step p = Some i ->
  Program.steps p !! i = Some s ->
  m (s, w) = (r, (s', w')) ->
  Program.on_current_step m (p, w)
  = (r, (Program.set_steps (<[i := s']> (Program.steps p)) p, w')).
Proof.
  intros Hc Hs Hm. unfold Program.on_current_step. cbn [fst snd].
  rewrite Hc, Hs, Hm. reflexivity.
Qed.

Lemma on_current_step_none {A} (m : M ProgramStep.t A) p w :
  Program.current_step p = None ->
  Program.on_current_step m (p, w) = (raise AttributeError, (p, w)).
Proof.
  intros Hc. unfold Program.on_current_step. cbn [fst snd].
  rewrite Hc. reflexivity.
Qed.

Lemma start_step (s : ProgramStep.t) (w : World) :
  ProgramStep.start (s, w)
  = (ok tt,
     ({| ProgramStep.entity := ProgramStep.entity s;
         ProgramStep.is_running := true;
         ProgramStep.start_time := Some (clock w (ticks w));
         ProgramStep.duration := ProgramStep.duration s |},
      {| clock := clock w; ticks := S (ticks w);
         played := played w ++ sounds_of (ProgramStep.entity s) |})).
Proof.
  unfold ProgramStep.start. run_method.
  unfold ProgramStep.set_start_time, ProgramStep.set_is_running, tick, emit.
  cbn [ProgramStep.entity ProgramStep.is_running ProgramStep.start_time
       ProgramStep.duration clock ticks played].
  destruct (ProgramStep.entity s); cbn [sounds_of fst snd clock ticks played];
    rewrite ?app_nil_r; reflexivity.
Qed.

Lemma Qeq_bool_false (x : Q) : ~ (x == 0)%Q -> Qeq_bool x 0 = false.
Proof.
  intros H. destruct (Qeq_bool x 0) eqn:E; [|reflexivity].
  apply Qeq_bool_iff in E. contradiction.
Qed.

Lemma int_nonneg (x : Q) : (0 <= x)%Q -> 0 <= Py.int x.
Proof.
  intros H. unfold Py.int. apply Z.quot_pos; [|lia].
  unfold Qle in H. simpl in H. lia.
Qed.

Lemma elapsed_nonneg (t0 t1 : Q) :
  (t0 <= t1)%Q -> 0 <= Py.int ((t1 - t0) * 1000).
Proof.
  intros H. apply int_nonneg. apply Qmult_le_0_compat; [|discriminate].
  apply -> Qle_minus_iff. exact H.
Qed.

(** ** A program of two steps *)

(** C3, amended: after [start] step 0 of a program with durations 100 and
    200 is running; a poll that observes more than 100 whole milliseconds
    on step 0 completes it and starts step 1 in that same call, which reads
    the clock a second time for the new start time; a poll that observes
    100 or less changes nothing but the clock. *)
Theorem two_step_program_poll (name : string) (k0 k1 : ProgramStep.kind)
    (w : World) :
  let t0 := clock w (ticks w) in
  let t1 := clock w (S (ticks w)) in
  let t2 := clock w (S (S (ticks w))) in
  let elapsed := Py.int ((t1 - t0) * 1000) in
  let started := Program.start (two_steps name k0 k1, w) in
  let polled := Program.step (snd started) in
  ~ (t0 == 0)%Q ->
  started
  = (ok tt,
     ({| Program.name := name;
         Program.steps :=
           [{| ProgramStep.entity := k0; ProgramStep.is_running := true;
               ProgramStep.start_time := Some t0;
               ProgramStep.duration := AInt 100 |};
            ProgramStep.init k1 (AInt 200)];
         Program.is_running := true;
         Program.current_step_idx := 0;
         Program.current_step := Some 0%nat |},
      {| clock := clock w; ticks := S (ticks w);
         played := played w ++ sounds_of k0 |})) /\
  (100 < elapsed ->
   polled
   = (ok tt,
      ({| Program.name := name;
          Program.steps :=
            [{| ProgramStep.entity := k0; ProgramStep.is_running := false;
                ProgramStep.start_time := None;
                ProgramStep.duration := AInt 100 |};
             {| ProgramStep.entity := k1; ProgramStep.is_running := true;
                ProgramStep.start_time := Some t2;
                ProgramStep.duration := AInt 200 |}];
          Program.is_running := true;
          Program.current_step_idx := 1;
          Program.current_step := Some 1%nat |},
       {| clock := clock w; ticks := S (S (S (ticks w)));
          played := (played w ++ sounds_of k0) ++ sounds_of k1 |}))) /\
  (elapsed <= 100 ->
   polled = (ok tt, (fst (snd started), tick (snd (snd started))))).
Proof.
  intros t0 t1 t2 elapsed started polled Ht0.
  assert (Hstart : started
    = (ok tt,
       ({| Program.name := name;
           Program.steps :=
             [{| ProgramStep.entity := k0; ProgramStep.is_running := true;
                 ProgramStep.start_time := Some t0;
                 ProgramStep.duration := AInt 100 |};
              ProgramStep.init k1 (AInt 200)];
           Program.is_running := true;
           Program.current_step_idx := 0;
           Program.current_step := Some 0%nat |},
        {| clock := clock w; ticks := S (ticks w);
           played := played w ++ sounds_of k0 |}))).
  { subst started. unfold Program.start.
    erewrite bind_ok by reflexivity.
    erewrite bind_ok by reflexivity.
    erewrite bind_ok
      by (eapply on_current_step_run;
          [reflexivity | reflexivity | apply start_step]).
    reflexivity. }
  split; [exact Hstart|].
  subst polled. rewrite Hstart. cbn [fst snd]. unfold Program.step.
  split; intros He.
  - erewrite bind_ok.
    2:{ eapply on_current_step_run; [reflexivity | reflexivity |].
        apply (step_started _ _ t0 100);
          [reflexivity | apply Qeq_bool_false; exact Ht0 | reflexivity]. }
    cbn [clock ticks]. fold t1 elapsed.
    replace (100 <? elapsed) with true by (symmetry; apply Z.ltb_lt; exact He).
    erewrite bind_ok
      by (eapply on_current_step_run; [reflexivity | reflexivity | reflexivity]).
    cbn [fst snd ProgramStep.is_complete ProgramStep.is_running
         ProgramStep.set_start_time ProgramStep.set_is_running negb].
    erewrite bind_ok by reflexivity.
    erewrite bind_ok by reflexivity.
    erewrite bind_ok by reflexivity.
    cbn -[sounds_of].
    change (Z.of_nat 2 <=? 0 + 1) with false. cbv iota.
    erewrite bind_ok by reflexivity.
    etransitivity;
      [eapply on_current_step_run;
       [reflexivity | reflexivity | apply start_step] | reflexivity].
  - erewrite bind_ok.
    2:{ eapply on_current_step_run; [reflexivity | reflexivity |].
        apply (step_started _ _ t0 100);
          [reflexivity | apply Qeq_bool_false; exact Ht0 | reflexivity]. }
    cbn [clock ticks]. fold t1 elapsed.
    replace (100 <? elapsed) with false by (symmetry; apply Z.ltb_ge; exact He).
    erewrite bind_ok
      by (eapply on_current_step_run; [reflexivity | reflexivity | reflexivity]).
    reflexivity.
Qed.

Lemma two_step_program_poll_witness :
  ~ (clock slow_world (ticks slow_world) == 0)%Q /\
  100 < Py.int ((clock slow_world 1 - clock slow_world 0) * 1000) /\
  fst (Program.step (snd (Program.start (drill, slow_world)))) = ok tt /\
  Program.current_step
    (fst (snd (Program.step (snd (Program.start (drill, slow_world))))))
  = Some 1%nat.
Proof.
  assert (H : ~ (clock slow_world (ticks slow_world) == 0)%Q)
    by (vm_compute; discriminate).
  assert (G : 100 < Py.int ((clock slow_world 1 - clock slow_world 0) * 1000))
    by (vm_compute; reflexivity).
  split; [exact H|]. split; [exact G|].
  destruct (two_step_program_poll "drill" ProgramStep.Base
              (ProgramStep.PlayNote (Note.init "C#" 4)) slow_world H)
    as (_ & Hgt & _).
  unfold drill. rewrite (Hgt G). split; reflexivity.
Defined.

(** C3 as stated fails at exactly 100 ms: the poll reads 100, which is at
    least 100, yet step 0 is not complete and step 1 is not started. *)
Lemma two_step_program_poll_at_100 :
  100 <= Py.int ((clock fast_world 1 - clock fast_world 0) * 1000) /\
  ~ (ProgramStep.is_complete
       <$> Program.steps
             (fst (snd (Program.step (snd (Program.start (drill, fast_world))))))
           !! 0%nat
     = Some true /\
     ProgramStep.is_running
       <$> Program.steps
             (fst (snd (Program.step (snd (Program.start (drill, fast_world))))))
           !! 1%nat
     = Some true).
Proof.
  split.
  - vm_compute. discriminate.
  - vm_compute. intros [H _]. discriminate H.
Qed.

(** ** A program that has completed *)

(** C4, amended: once [stop] has marked a program complete its current
    step is [None], and a further poll is not a no-op: it raises
    [AttributeError]. It runs no step, reads no clock, plays nothing and
    leaves the program as it was. *)
Theorem poll_after_complete_raises (p : Program.t) (w : World) :
  Program.is_complete (fst (snd (Program.stop (p, w)))) = true /\
  Program.current_step (fst (snd (Program.stop (p, w)))) = None /\
  snd (snd (Program.stop (p, w))) = w /\
  Program.step (snd (Program.stop (p, w)))
  = (raise AttributeError, snd (Program.stop (p, w))).
Proof.
  split; [reflexivity|]. split; [reflexivity|]. split; [reflexivity|].
  unfold Program.step. eapply bind_raise.
  apply on_current_step_none. reflexivity.
Qed.

(** C4 as stated fails on the finished drill: it is complete, both its
    steps are complete, and one more poll does not return. *)
Lemma poll_after_complete_fails :
  Program.is_complete (fst finished) = true /\
  ProgramStep.is_complete <$> Program.steps (fst finished)
  = [true; true] /\
  fst (Program.step finished) <> ok tt.
Proof.
  split; [reflexivity|]. split; [reflexivity|].
  vm_compute. discriminate.
Qed.

(** ** Steps of duration zero or less *)

(** C7, amended: a step of negative duration is complete after the next
    poll that follows [start], however little time has passed; a step of
    duration zero is complete after that poll exactly when the poll
    observes at least one whole millisecond. (The clock does not run
    backwards and its reading at [start] is not zero.) *)
Theorem nonpositive_duration_next_poll (k : ProgramStep.kind) (d : Z)
    (w : World) :
  let t0 := clock w (ticks w) in
  let t1 := clock w (S (ticks w)) in
  let polled :=
    ProgramStep.step (snd (ProgramStep.start (ProgramStep.init k (AInt d), w))) in
  d <= 0 -> ~ (t0 == 0)%Q -> (t0 <= t1)%Q ->
  fst polled = ok tt /\
  (ProgramStep.is_complete (fst (snd polled)) = true
   <-> d < 0 \/ 1 <= Py.int ((t1 - t0) * 1000)).
Proof.
  intros t0 t1 polled Hd Ht0 Hle. subst polled.
  rewrite start_step. cbn [fst snd ProgramStep.init ProgramStep.entity
                           ProgramStep.duration].
  rewrite (step_started _ _ t0 d);
    [| reflexivity | apply Qeq_bool_false; exact Ht0 | reflexivity].
  cbn [fst snd clock ticks]. fold t1.
  pose proof (elapsed_nonneg t0 t1 Hle) as He.
  split; [reflexivity|].
  destruct (Z.ltb_spec d (Py.int ((t1 - t0) * 1000))) as [Hlt|Hge];
    cbn [ProgramStep.is_complete ProgramStep.is_running
         ProgramStep.set_start_time ProgramStep.set_is_running negb].
  - split; [intros _; lia | reflexivity].
  - split; [discriminate | intros [H|H]; lia].
Qed.

Lemma nonpositive_duration_next_poll_witness :
  -5 <= 0 /\
  ~ (clock fast_world (ticks fast_world) == 0)%Q /\
  (clock fast_world (ticks fast_world)
   <= clock fast_world (S (ticks fast_world)))%Q /\
  ProgramStep.is_complete
    (fst (snd (ProgramStep.step
                 (snd (ProgramStep.start
                         (ProgramStep.init ProgramStep.Base (AInt (-5)),
                          fast_world))))))
  = true.
Proof.
  assert (H1 : -5 <= 0) by lia.
  assert (H2 : ~ (clock fast_world (ticks fast_world) == 0)%Q)
    by (vm_compute; discriminate).
  assert (H3 : (clock fast_world (ticks fast_world)
                <= clock fast_world (S (ticks fast_world)))%Q)
    by (vm_compute; discriminate).
  repeat (split; [assumption|]).
  apply (nonpositive_duration_next_poll ProgramStep.Base (-5) fast_world
           H1 H2 H3).
  left. lia.
Defined.

(** C7 as stated fails for duration zero: polled within the millisecond
    of its start, the step is still running. *)
Lemma zero_duration_still_running :
  0 <= 0 /\
  ProgramStep.is_complete
    (fst (snd (ProgramStep.step
                 (snd (ProgramStep.start
                         (ProgramStep.init ProgramStep.Base (AInt 0),
                          quick_world))))))
  <> true.
Proof.
  split; [lia|]. vm_compute. discriminate.
Qed.

(** ** The program generator *)

Local Open Scope list_scope.

(** A loop whose body appends [m] items at each turn appends
    [length l * m] items in all. *)
Lemma for_length {A B} (l : list A) (m n : nat)
    (body : list B -> A -> result (list B)) :
  (length l * m)%nat = n ->
  (forall acc x, x ∈ l ->
     exists ys, body acc x = ok (acc ++ ys) /\ length ys = m) ->
  forall acc,
    exists zs, Py.for_ l acc body = ok (acc ++ zs) /\ length zs = n.
Proof.
  intros <-. induction l as [|x l IH]; intros Hbody acc.
  - exists []. rewrite app_nil_r. split; reflexivity.
  - destruct (Hbody acc x) as (ys & Hys & Hlen); [left|].
    destruct (IH (fun acc' y Hy => Hbody acc' y (list_elem_of_further _ _ _ Hy))
                 (acc ++ ys)) as (zs & Hzs & Hlen').
    exists (ys ++ zs). cbn [Py.for_]. rewrite Hys, rbind_ok, Hzs.
    rewrite <- app_assoc. split; [reflexivity|].
    rewrite length_app. cbn [length]. lia.
Qed.

Lemma for_length_nil {A B} (l : list A) (m n : nat)
    (body : list B -> A -> result (list B)) :
  (length l * m)%nat = n ->
  (forall acc x, x ∈ l ->
     exists ys, body acc x = ok (acc ++ ys) /\ length ys = m) ->
  exists zs, Py.for_ l [] body = ok zs /\ length zs = n.
Proof. intros Hn Hbody. exact (for_length l m n body Hn Hbody []). Qed.

Lemma or_empty_array (l : list atom) : Py.or_empty (Array l) = Array l.
Proof. destruct l; reflexivity. Qed.

Lemma interval_init_ok (i p : string) (o : Z) :
  is_Some (Interval.SEMITONE_MAP !! i) -> p ∈ Note.NOTES ->
  exists v, Interval.init i (Note.init p o) = ok v.
Proof.
  intros [s Hs] Hp.
  assert (Hsem : Interval.semitones i = ok s).
  { unfold Interval.semitones, Py.getitem. rewrite Hs. reflexivity. }
  destruct (index_elem_of _ _ Hp) as [idx Hidx].
  destruct (add_semitones_mod p o s idx Hidx (semitones_bounds _ _ Hsem))
    as (q & _ & Hadd).
  unfold Interval.init, Interval.add_interval.
  rewrite Hsem, rbind_ok, Hadd, rbind_ok. eauto.
Qed.

Lemma getitem_some {V} (d : gmap string V) (key : string) (v : V) :
  d !! key = Some v -> Py.getitem d key = ok v.
Proof. intros H. unfold Py.getitem. rewrite H. reflexivity. Qed.

Lemma subscript_first_two (x y : atom) (rest : list atom) :
  Py.subscript (Array (x :: y :: rest)) 0 = ok x /\
  Py.subscript (Array (x :: y :: rest)) 1 = ok y.
Proof.
  cbn [Py.subscript]. split.
  - destruct (index_list_in_range (x :: y :: rest) 0) as (v & Hv & ->);
      [cbn [length]; lia|].
    change (Z.to_nat 0) with 0%nat in Hv. injection Hv as ->. reflexivity.
  - destruct (index_list_in_range (x :: y :: rest) 1) as (v & Hv & ->);
      [cbn [length]; lia|].
    change (Z.to_nat 1) with 1%nat in Hv. injection Hv as ->. reflexivity.
Qed.

Section Generator.

Variables (config : ConfigFile.t) (settings programs : gmap string value).
Variables (a b : Z) (rest : list atom) (nd idur : value).

Hypothesis Hsettings : config !! "settings" = Some settings.
Hypothesis Hrange :
  settings !! "octave_range" = Some (Array (AInt a :: AInt b :: rest)).
Hypothesis Hnd : settings !! "note_duration" = Some nd.
Hypothesis Hidur : settings !! "identity_duration" = Some idur.
Hypothesis Hprograms : config !! "programs" = Some programs.

Lemma settings_ok : ConfigFile.settings config = ok settings.
Proof.
  unfold ConfigFile.settings, Py.getitem. rewrite Hsettings. reflexivity.
Qed.

Lemma octave_range_ok :
  ConfigFile.octave_range config = ok (Py.range a (b + 1)).
Proof.
  destruct (subscript_first_two (AInt a) (AInt b) rest) as [H0 H1].
  unfold ConfigFile.octave_range. rewrite settings_ok, rbind_ok.
  rewrite (getitem_some _ _ _ Hrange), rbind_ok, H0, rbind_ok, rbind_ok.
  rewrite (getitem_some _ _ _ Hrange), rbind_ok, H1, rbind_ok.
  reflexivity.
Qed.

Lemma programs_of_ok (family : string) (l : list atom) :
  programs !! family = Some (Array l) ->
  ConfigFile.programs_of config family = ok (Array l).
Proof.
  intros H. unfold ConfigFile.programs_of, Py.getitem.
  rewrite Hprograms, rbind_ok, H, rbind_ok, or_empty_array. reflexivity.
Qed.

Lemma programs_of_missing (family : string) :
  programs !! family = None ->
  ConfigFile.programs_of config family = raise (KeyError (AStr family)).
Proof.
  intros H. unfold ConfigFile.programs_of, Py.getitem.
  rewrite Hprograms, rbind_ok, H. reflexivity.
Qed.

Let k : nat := octaves a b.

Lemma range_length : length (Py.range a (b + 1)) = k.
Proof. rewrite length_range. subst k. unfold octaves. f_equal. lia. Qed.

Lemma read_note_programs_length (notes : list string) :
  programs !! "notes" = Some (Array (AStr <$> notes)) ->
  exists np, ConfigFile.read_note_programs config = ok np /\
             length np = (length notes * k)%nat.
Proof.
  intros H. unfold ConfigFile.read_note_programs.
  rewrite (programs_of_ok _ _ H), rbind_ok, settings_ok, rbind_ok.
  rewrite (getitem_some _ _ _ Hnd), rbind_ok, rbind_ok.
  rewrite (getitem_some _ _ _ Hidur), rbind_ok.
  cbn [Py.iter]. rewrite rbind_ok. cbv zeta.
  apply (for_length_nil _ k); [rewrite length_fmap; reflexivity|].
  intros acc x Hx. apply list_elem_of_fmap in Hx as (name & -> & _).
  rewrite octave_range_ok, rbind_ok.
  apply (for_length _ 1); [rewrite range_length; lia|].
  intros acc' o _. cbn [ConfigFile.make_note]. rewrite rbind_ok.
  eexists. split; reflexivity.
Qed.

Lemma read_interval_programs_length (intervals : list string) :
  programs !! "intervals" = Some (Array (AStr <$> intervals)) ->
  (forall i, i ∈ intervals -> is_Some (Interval.SEMITONE_MAP !! i)) ->
  exists ip, ConfigFile.read_interval_programs config = ok ip /\
             length ip = (length intervals * 12 * k)%nat.
Proof.
  intros H Hvalid. unfold ConfigFile.read_interval_programs.
  rewrite (programs_of_ok _ _ H), rbind_ok, settings_ok, rbind_ok.
  rewrite (getitem_some _ _ _ Hnd), rbind_ok, rbind_ok.
  rewrite (getitem_some _ _ _ Hidur), rbind_ok.
  cbn [Py.iter]. rewrite rbind_ok. cbv zeta.
  apply (for_length_nil _ (12 * k)); [rewrite length_fmap; lia|].
  intros acc x Hx. apply list_elem_of_fmap in Hx as (i & -> & Hi).
  apply (for_length _ k); [reflexivity|].
  intros acc' p Hp. rewrite octave_range_ok, rbind_ok.
  apply (for_length _ 1); [rewrite range_length; lia|].
  intros acc'' o _. cbn [ConfigFile.make_interval].
  destruct (interval_init_ok i p o (Hvalid i Hi) Hp) as [v ->].
  rewrite rbind_ok. eexists. split; reflexivity.
Qed.

Lemma read_chord_programs_length (chords : list string) :
  programs !! "chords" = Some (Array (AStr <$> chords)) ->
  (forall c, c ∈ chords -> c ∈ QUALITIES) ->
  exists cp, ConfigFile.read_chord_programs config = ok cp /\
             length cp = (length chords * 12 * k)%nat.
Proof.
  intros H Hvalid. unfold ConfigFile.read_chord_programs.
  rewrite (programs_of_ok _ _ H), rbind_ok, settings_ok, rbind_ok.
  rewrite (getitem_some _ _ _ Hnd), rbind_ok, rbind_ok.
  rewrite (getitem_some _ _ _ Hidur), rbind_ok.
  cbn [Py.iter]. rewrite rbind_ok. cbv zeta.
  apply (for_length_nil _ (12 * k)); [rewrite length_fmap; lia|].
  intros acc x Hx. apply list_elem_of_fmap in Hx as (c & -> & Hc).
  apply (for_length _ k); [reflexivity|].
  intros acc' p Hp. rewrite octave_range_ok, rbind_ok.
  apply (for_length _ 1); [rewrite range_length; lia|].
  intros acc'' o _. cbn [Py.str].
  destruct (chord_init_notes c p o (Hvalid c Hc) Hp)
    as (i1 & i2 & n1 & n2 & _ & _ & _ & ->).
  rewrite rbind_ok. eexists. split; reflexivity.
Qed.

End Generator.

(** C6: with [k] octaves in the inclusive range, [n] note names, [i]
    interval names of the table and [c] chord qualities among maj, min and
    dim, the three readers return [n * k], [i * 12 * k] and [c * 12 * k]
    programs, and the catalogue is their concatenation in that order; an
    empty list gives no program. *)
Theorem catalogue_size (config : ConfigFile.t)
    (settings programs : gmap string value) (a b : Z) (rest : list atom)
    (nd idur : value) (notes intervals chords : list string) :
  config !! "settings" = Some settings ->
  settings !! "octave_range" = Some (Array (AInt a :: AInt b :: rest)) ->
  settings !! "note_duration" = Some nd ->
  settings !! "identity_duration" = Some idur ->
  config !! "programs" = Some programs ->
  programs !! "notes" = Some (Array (AStr <$> notes)) ->
  programs !! "intervals" = Some (Array (AStr <$> intervals)) ->
  programs !! "chords" = Some (Array (AStr <$> chords)) ->
  (forall i, i ∈ intervals -> is_Some (Interval.SEMITONE_MAP !! i)) ->
  (forall c, c ∈ chords -> c ∈ QUALITIES) ->
  exists np ip cp,
    ConfigFile.read_note_programs config = ok np /\
    ConfigFile.read_interval_programs config = ok ip /\
    ConfigFile.read_chord_programs config = ok cp /\
    ConfigFile.read_programs config = ok ((np ++ ip) ++ cp) /\
    length np = (length notes * octaves a b)%nat /\
    length ip = (length intervals * 12 * octaves a b)%nat /\
    length cp = (length chords * 12 * octaves a b)%nat.
Proof.
  intros Hs Hr Hnd Hid Hp Hn Hi Hc Hvi Hvc.
  destruct (read_note_programs_length config settings programs a b rest
              nd idur Hs Hr Hnd Hid Hp notes Hn) as (np & Hnp & Lnp).
  destruct (read_interval_programs_length config settings programs a b rest
              nd idur Hs Hr Hnd Hid Hp intervals Hi Hvi) as (ip & Hip & Lip).
  destruct (read_chord_programs_length config settings programs a b rest
              nd idur Hs Hr Hnd Hid Hp chords Hc Hvc) as (cp & Hcp & Lcp).
  exists np, ip, cp. unfold ConfigFile.read_programs.
  rewrite Hnp, Hip, Hcp, !rbind_ok. auto 10.
Qed.

Lemma catalogue_size_witness :
  exists np ip cp,
    ConfigFile.read_note_programs demo_config = ok np /\
    ConfigFile.read_interval_programs demo_config = ok ip /\
    ConfigFile.read_chord_programs demo_config = ok cp /\
    ConfigFile.read_programs demo_config = ok ((np ++ ip) ++ cp) /\
    length np = (2 * octaves 3 4)%nat /\
    length ip = (1 * 12 * octaves 3 4)%nat /\
    length cp = (0 * 12 * octaves 3 4)%nat.
Proof.
  apply (catalogue_size demo_config demo_settings demo_programs 3 4 []
           (Atom (AInt 1000)) (Atom (AInt 1500)) ["C"; "F#"] ["5th"] []);
    try reflexivity.
  - intros i Hi. apply elem_of_cons in Hi as [->|Hi]; [|inversion Hi].
    exists 7. reflexivity.
  - intros c Hc. inversion Hc.
Defined.

(** ** A missing section *)

(** C5 on the code: when the [programs] table lacks one of the three
    sections its reader raises [KeyError] on the subscript, before
    [or []] is reached, and [read_programs] raises with it: no catalogue
    is returned. *)
Theorem missing_section_raises (config : ConfigFile.t)
    (programs : gmap string value) :
  config !! "programs" = Some programs ->
  (programs !! "notes" = None ->
   ConfigFile.read_note_programs config = raise (KeyError (AStr "notes"))) /\
  (programs !! "intervals" = None ->
   ConfigFile.read_interval_programs config
   = raise (KeyError (AStr "intervals"))) /\
  (programs !! "chords" = None ->
   ConfigFile.read_chord_programs config
   = raise (KeyError (AStr "chords"))) /\
  (programs !! "notes" = None \/ programs !! "intervals" = None \/
   programs !! "chords" = None ->
   exists e, ConfigFile.read_programs config = raise e).
Proof.
  intros Hp.
  assert (Hn : programs !! "notes" = None ->
    ConfigFile.read_note_programs config = raise (KeyError (AStr "notes"))).
  { intros H. unfold ConfigFile.read_note_programs.
    rewrite (programs_of_missing config programs Hp _ H). reflexivity. }
  assert (Hi : programs !! "intervals" = None ->
    ConfigFile.read_interval_programs config
    = raise (KeyError (AStr "intervals"))).
  { intros H. unfold ConfigFile.read_interval_programs.
    rewrite (programs_of_missing config programs Hp _ H). reflexivity. }
  assert (Hc : programs !! "chords" = None ->
    ConfigFile.read_chord_programs config = raise (KeyError (AStr "chords"))).
  { intros H. unfold ConfigFile.read_chord_programs.
    rewrite (programs_of_missing config programs Hp _ H). reflexivity. }
  repeat (split; [assumption|]).
  intros H. unfold ConfigFile.read_programs.
  destruct (ConfigFile.read_note_programs config) as [e|np] eqn:En;
    [exists e; reflexivity|].
  destruct (ConfigFile.read_interval_programs config) as [e|ip] eqn:Ei;
    [exists e; reflexivity|].
  destruct (ConfigFile.read_chord_programs config) as [e|cp] eqn:Ec;
    [exists e; reflexivity|].
  exfalso. destruct H as [H|[H|H]].
  - specialize (Hn H). discriminate.
  - specialize (Hi H). discriminate.
  - specialize (Hc H). discriminate.
Qed.

Lemma missing_section_raises_witness :
  no_notes_config !! "programs" = Some (delete "notes" demo_programs) /\
  delete "notes" demo_programs !! "notes" = None /\
  ConfigFile.read_programs no_notes_config = raise (KeyError (AStr "notes")).
Proof.
  assert (Hp : no_notes_config !! "programs"
               = Some (delete "notes" demo_programs)) by reflexivity.
  assert (Hn : delete "notes" demo_programs !! "notes" = None)
    by reflexivity.
  split; [exact Hp|]. split; [exact Hn|].
  unfold ConfigFile.read_programs.
  rewrite (proj1 (missing_section_raises no_notes_config _ Hp) Hn).
  reflexivity.
Defined.

(** * Further properties of the code *)

(** ** Strings *)

Lemma append_cons (a : ascii) (s1 s2 : string) :
  String a s1 +:+ s2 = String a (s1 +:+ s2).
Proof. reflexivity. Qed.

Lemma append_empty_l (s : string) : EmptyString +:+ s = s.
Proof. reflexivity. Qed.

(** Push the characters of a literal prefix out of an append. *)
Ltac push_append := rewrite ?append_cons, ?append_empty_l.

Lemma append_assoc (s1 s2 s3 : string) :
  (s1 +:+ s2) +:+ s3 = s1 +:+ (s2 +:+ s3).
Proof.
  induction s1 as [|a s1 IH]; push_append; [reflexivity | by rewrite IH].
Qed.

Lemma split_not_nil (c : ascii) (s : string) : Py.split c s <> [].
Proof.
  destruct s as [|a s]; cbn; [discriminate|].
  destruct (Ascii.eqb a c); [discriminate|].
  destruct (Py.split c s); discriminate.
Qed.

Lemma split_pieces (c : ascii) (s : string) :
  length (Py.split c s) = S (Py.count c s) /\
  Forall (fun piece => Py.count c piece = 0%nat) (Py.split c s) /\
  Py.join (String c EmptyString) (Py.split c s) = s.
Proof.
  induction s as [|a s (IHlen & IHall & IHjoin)].
  - cbn. repeat split. constructor; [reflexivity | constructor].
  - cbn [Py.split Py.count]. destruct (Ascii.eqb a c) eqn:E.
    + apply Ascii.eqb_eq in E as ->. split; [cbn; by rewrite IHlen|].
      split; [constructor; [reflexivity | exact IHall]|].
      cbn [Py.join]. destruct (Py.split c s) as [|p ps] eqn:Es.
      * by destruct (split_not_nil c s).
      * push_append. by rewrite IHjoin.
    + destruct (Py.split c s) as [|p ps] eqn:Es.
      * by destruct (split_not_nil c s).
      * split; [exact IHlen|]. split.
        -- inversion IHall as [|? ? Hp Hps]; subst. constructor; [|exact Hps].
           cbn. rewrite E. exact Hp.
        -- rewrite <- IHjoin. cbn [Py.join].
           destruct ps; push_append; reflexivity.
Qed.

(** X1: [split] cuts a string at every separator: there is one piece more
    than there are separators, no piece holds the separator, and joining
    the pieces with the separator gives the string back. *)
Theorem split_join (c : ascii) (s : string) :
  length (Py.split c s) = S (Py.count c s) /\
  Forall (fun piece => Py.count c piece = 0%nat) (Py.split c s) /\
  Py.join (String c EmptyString) (Py.split c s) = s.
Proof. exact (split_pieces c s). Qed.

Lemma split_no_separator (c : ascii) (s : string) :
  Py.count c s = 0%nat -> Py.split c s = [s].
Proof.
  induction s as [|a s IH]; [reflexivity|]. cbn.
  destruct (Ascii.eqb a c); [discriminate|]. intros H. by rewrite (IH H).
Qed.

Lemma split_app_separator (c : ascii) (s1 s2 : string) :
  Py.count c s1 = 0%nat ->
  Py.split c (s1 +:+ String c s2) = s1 :: Py.split c s2.
Proof.
  induction s1 as [|a s1 IH]; push_append; cbn.
  - rewrite Ascii.eqb_refl. reflexivity.
  - destruct (Ascii.eqb a c); [discriminate|]. intros H. by rewrite (IH H).
Qed.

(** X2: an identity has one sample file for each part of its name between
    spaces, in the [identity] directory, played one after the other: one
    file more than the name has spaces, so never none. *)
Theorem identity_sound_parts (name : string) :
  Sound.filenames (Identity.sound (Identity.init name))
  = (fun part => Sound.cleaned_filename
                   ("./samples/identity/" +:+ part +:+ ".wav"))
      <$> Py.split " " name /\
  length (Sound.filenames (Identity.sound (Identity.init name)))
  = S (Py.count " " name) /\
  Sound.sequential (Identity.sound (Identity.init name)) = true.
Proof.
  split; [|split; [|reflexivity]].
  - unfold Identity.sound, Sound.init_list. cbn [Sound.filenames Identity.name
      Identity.init]. by rewrite map_map.
  - unfold Identity.sound, Sound.init_list. cbn [Sound.filenames Identity.name
      Identity.init]. rewrite !length_map. apply split_pieces.
Qed.

(** ** Sample file names *)

Lemma replace_app (c : ascii) (new s1 s2 : string) :
  Py.replace c new (s1 +:+ s2)
  = Py.replace c new s1 +:+ Py.replace c new s2.
Proof.
  induction s1 as [|a s1 IH]; push_append; cbn; [reflexivity|].
  destruct (Ascii.eqb a c); rewrite IH; [by rewrite append_assoc | reflexivity].
Qed.

Lemma replace_absent (c : ascii) (new s : string) :
  Py.count c s = 0%nat -> Py.replace c new s = s.
Proof.
  induction s as [|a s IH]; cbn; [reflexivity|].
  destruct (Ascii.eqb a c); [discriminate|]. intros H. by rewrite (IH H).
Qed.

Lemma count_app (c : ascii) (s1 s2 : string) :
  Py.count c (s1 +:+ s2) = (Py.count c s1 + Py.count c s2)%nat.
Proof.
  induction s1 as [|a s1 IH]; push_append; cbn; [reflexivity|].
  destruct (Ascii.eqb a c); rewrite IH; reflexivity.
Qed.

Lemma count_replace_other (c d : ascii) (new s : string) :
  Py.count d new = 0%nat ->
  Py.count d (Py.replace c new s)
  = if Ascii.eqb c d then 0%nat else Py.count d s.
Proof.
  intros Hnew. induction s as [|a s IH]; cbn; [by destruct (Ascii.eqb c d)|].
  destruct (Ascii.eqb_spec a c) as [->|Hac].
  - rewrite count_app, Hnew, IH. cbn. destruct (Ascii.eqb c d); reflexivity.
  - cbn. rewrite IH. destruct (Ascii.eqb_spec c d) as [->|Hcd].
    + destruct (Ascii.eqb_spec a d); [contradiction | reflexivity].
    + reflexivity.
Qed.

Lemma cleaned_app (s1 s2 : string) :
  Sound.cleaned_filename (s1 +:+ s2)
  = Sound.cleaned_filename s1 +:+ Sound.cleaned_filename s2.
Proof. unfold Sound.cleaned_filename. by rewrite !replace_app. Qed.

(** X4: a cleaned file name holds no ['#'] and no ['b'], so cleaning it
    again changes nothing. *)
Theorem cleaned_filename_clean (s : string) :
  Py.count "#" (Sound.cleaned_filename s) = 0%nat /\
  Py.count "b" (Sound.cleaned_filename s) = 0%nat /\
  Sound.cleaned_filename (Sound.cleaned_filename s) = Sound.cleaned_filename s.
Proof.
  assert (Hsharp : Py.count "#" (Sound.cleaned_filename s) = 0%nat).
  { unfold Sound.cleaned_filename.
    rewrite (count_replace_other "b" "#" "flat") by reflexivity.
    cbn [Ascii.eqb Bool.eqb andb]. cbv iota.
    rewrite (count_replace_other "#" "#" "sh") by reflexivity. reflexivity. }
  assert (Hflat : Py.count "b" (Sound.cleaned_filename s) = 0%nat).
  { unfold Sound.cleaned_filename.
    rewrite (count_replace_other "b" "b" "flat") by reflexivity. reflexivity. }
  repeat split; try assumption.
  unfold Sound.cleaned_filename at 1.
  rewrite (replace_absent "#" "sh" _ Hsharp).
  apply replace_absent. exact Hflat.
Qed.

(** X3: [cleaned_filename] works piece by piece: the cleaned name of a
    concatenation is the concatenation of the cleaned names. *)
Theorem cleaned_filename_app (s1 s2 : string) :
  Sound.cleaned_filename (s1 +:+ s2)
  = Sound.cleaned_filename s1 +:+ Sound.cleaned_filename s2.
Proof. exact (cleaned_app s1 s2). Qed.

Lemma count_cons_zero (a c : ascii) (s : string) :
  Py.count c (String a s) = 0%nat ->
  Ascii.eqb a c = false /\ Py.count c s = 0%nat.
Proof. cbn. destruct (Ascii.eqb a c); [discriminate | auto]. Qed.

Lemma count_uint (c : ascii) (d : Decimal.uint) :
  Py.count c "0123456789" = 0%nat ->
  Py.count c (NilEmpty.string_of_uint d) = 0%nat.
Proof.
  intros H. repeat (apply count_cons_zero in H as [? H]).
  induction d; cbn [NilEmpty.string_of_uint Py.count]; [reflexivity|..];
    match goal with
    | E : Ascii.eqb ?x c = false |- context [Ascii.eqb ?x c] => rewrite E
    end; assumption.
Qed.

Lemma count_str_int (c : ascii) (n : Z) :
  Py.count c "-0123456789" = 0%nat -> Py.count c (Py.str_int n) = 0%nat.
Proof.
  intros H. apply count_cons_zero in H as [E H].
  assert (G : forall d, Py.count c (NilZero.string_of_uint d) = 0%nat).
  { intros d. destruct d; try exact (count_uint c _ H).
    apply count_cons_zero in H as [E0 _].
    unfold NilZero.string_of_uint. cbn [Py.count]. by rewrite E0. }
  unfold Py.str_int, NilZero.string_of_int.
  destruct (Z.to_int n); cbn [Py.count]; rewrite ?E; apply G.
Qed.

Lemma cleaned_filename_absent (s : string) :
  Py.count "#" s = 0%nat -> Py.count "b" s = 0%nat ->
  Sound.cleaned_filename s = s.
Proof.
  intros Hsharp Hflat. unfold Sound.cleaned_filename.
  rewrite (replace_absent "#" "sh" s Hsharp). by apply replace_absent.
Qed.

(** X5: the sample of a note is the file named by its pitch class, with
    every ['#'] turned into [sh] and every ['b'] into [flat], followed by
    the octave in decimal, in the [note] directory; the directory, the
    octave and the extension are not rewritten. A chord plays, overlaid,
    the files of its notes in their order. *)
Theorem note_sound_path :
  (forall (name : string) (o : Z),
      Note.sound (Note.init name o)
      = {| Sound.filenames :=
             ["./samples/note/" +:+ Sound.cleaned_filename name
                +:+ Py.str_int o +:+ ".wav"];
           Sound.sequential := false |}) /\
  (forall c : Chord.t,
      Sound.filenames (Chord.sound c)
      = concat (Sound.filenames <$> (Note.sound <$> Chord.notes c)) /\
      Sound.sequential (Chord.sound c) = false).
Proof.
  split.
  - intros name o. unfold Note.sound, Sound.init_str, Note.name.
    cbn [Note.note_name Note.octave Note.init]. do 2 f_equal.
    rewrite !cleaned_app, append_assoc.
    rewrite (cleaned_filename_absent (Py.str_int o))
      by (apply count_str_int; reflexivity).
    reflexivity.
  - intros c. split; [|reflexivity].
    unfold Chord.sound, Sound.init_list. cbn [Sound.filenames].
    induction (Chord.notes c) as [|n ns IH]; [reflexivity|].
    cbn [map fmap list_fmap concat]. cbn [fmap list_fmap] in IH.
    rewrite IH. reflexivity.
Qed.

(** ** Notes outside the interval table *)

Lemma index_not_elem_of (l : list string) (x : string) :
  x ∉ l -> Py.index l x = raise ValueError.
Proof.
  induction l as [|y l IH]; intros H; [reflexivity|].
  apply not_elem_of_cons in H as [Hne Hl]. cbn [Py.index].
  destruct (String.eqb_spec y x) as [->|_]; [contradiction|].
  rewrite (IH Hl). reflexivity.
Qed.

Lemma position_negative (len : nat) (i : Z) :
  - Z.of_nat len <= i < 0 ->
  Py.position len i = ok (Z.to_nat (i + Z.of_nat len)).
Proof.
  intros H. unfold Py.position.
  destruct (Z.ltb_spec i 0); [|lia].
  destruct (Z.ltb_spec (i + Z.of_nat len) 0); [lia|].
  destruct (Z.leb_spec (Z.of_nat len) (i + Z.of_nat len)); [lia|]. reflexivity.
Qed.

Lemma position_out_of_range (len : nat) (i : Z) :
  i < - Z.of_nat len \/ Z.of_nat len <= i ->
  Py.position len i = raise IndexError.
Proof.
  intros H. unfold Py.position.
  destruct (Z.ltb_spec i 0).
  - destruct (Z.ltb_spec (i + Z.of_nat len) 0); [reflexivity|lia].
  - destruct (Z.ltb_spec i 0); [lia|].
    destruct (Z.leb_spec (Z.of_nat len) i); [reflexivity|lia].
Qed.

(** X6: [add_semitones] on a canonical pitch class at index [i], for any
    offset [n]. While [-12 <= i + n < 24] it returns the pitch class at
    index [(i + n) mod 12]; the octave goes up by one exactly when
    [i + n >= 12] and never goes down, so an offset that reaches below C
    wraps the name but keeps the octave. Outside that window it raises
    [IndexError]. *)
Theorem add_semitones_any_offset (p : string) (o n i : Z) :
  Py.index Note.NOTES p = ok i ->
  (-12 <= i + n < 24 ->
   exists q,
     Note.NOTES !! Z.to_nat ((i + n) mod 12) = Some q /\
     Note.add_semitones (Note.init p o) n
     = ok (Note.init q (if 12 <=? i + n then o + 1 else o))) /\
  (i + n < -12 \/ 24 <= i + n ->
   Note.add_semitones (Note.init p o) n = raise IndexError).
Proof.
  intros Hi. unfold Note.add_semitones.
  cbn [Note.note_name Note.init Note.octave]. rewrite Hi, rbind_ok.
  change (Z.of_nat (length Note.NOTES)) with 12.
  unfold Py.index_list. change (length Note.NOTES) with 12%nat.
  split; intros Hn.
  - destruct (Z.leb_spec 12 (i + n)) as [Hge|Hlt]; cbv beta iota zeta.
    + rewrite position_in_range by lia. rewrite rbind_ok.
      replace ((i + n) mod 12) with (i + n - 12)
        by (apply (Z.mod_unique (i + n) 12 1); lia).
      destruct (lookup_lt_is_Some_2 Note.NOTES (Z.to_nat (i + n - 12)))
        as [q Hq]; [change (length Note.NOTES) with 12%nat; lia|].
      exists q. rewrite Hq. split; reflexivity.
    + destruct (Z.ltb_spec (i + n) 0) as [Hneg|Hpos].
      * rewrite position_negative by lia. rewrite rbind_ok.
        replace ((i + n) mod 12) with (i + n + 12)
          by (apply (Z.mod_unique (i + n) 12 (-1)); lia).
        change (Z.of_nat 12) with 12.
        destruct (lookup_lt_is_Some_2 Note.NOTES (Z.to_nat (i + n + 12)))
          as [q Hq]; [change (length Note.NOTES) with 12%nat; lia|].
        exists q. rewrite Hq. split; reflexivity.
      * rewrite position_in_range by lia. rewrite rbind_ok.
        rewrite Z.mod_small by lia.
        destruct (lookup_lt_is_Some_2 Note.NOTES (Z.to_nat (i + n)))
          as [q Hq]; [change (length Note.NOTES) with 12%nat; lia|].
        exists q. rewrite Hq. split; reflexivity.
  - destruct (Z.leb_spec 12 (i + n)) as [Hge|Hlt]; cbv beta iota zeta;
      rewrite position_out_of_range by lia; reflexivity.
Qed.

Lemma add_semitones_any_offset_witness :
  Py.index Note.NOTES "C" = ok 0 /\
  Note.add_semitones (Note.init "C" 4) (-1) = ok (Note.init "B" 4) /\
  Note.add_semitones (Note.init "C" 4) 24 = raise IndexError.
Proof.
  assert (Hi : Py.index Note.NOTES "C" = ok 0) by reflexivity.
  split; [exact Hi|].
  destruct (add_semitones_any_offset "C" 4 (-1) 0 Hi) as [Hin _].
  destruct (add_semitones_any_offset "C" 4 24 0 Hi) as [_ Hout].
  split; [|apply Hout; lia].
  destruct Hin as (q & Hq & ->); [lia|].
  injection Hq as <-. reflexivity.
Defined.

Lemma unknown_name_raises (p : string) (o : Z) :
  p ∉ Note.NOTES ->
  (forall n, Note.add_semitones (Note.init p o) n = raise ValueError) /\
  (forall name, is_Some (Interval.SEMITONE_MAP !! name) ->
     Interval.add_interval (Note.init p o) name = raise ValueError /\
     Interval.init name (Note.init p o) = raise ValueError).
Proof.
  intros Hp.
  assert (H : forall n, Note.add_semitones (Note.init p o) n = raise ValueError).
  { intros n. unfold Note.add_semitones. cbn [Note.note_name Note.init].
    rewrite (index_not_elem_of _ _ Hp). reflexivity. }
  split; [exact H|]. intros name [s Hs].
  assert (G : Interval.add_interval (Note.init p o) name = raise ValueError).
  { unfold Interval.add_interval, Interval.semitones.
    rewrite (getitem_some _ _ _ Hs), rbind_ok. apply H. }
  split; [exact G|]. unfold Interval.init. rewrite G. reflexivity.
Qed.

(** X7: [Note] takes any name without checking it, and the check comes
    with the first arithmetic: for a name that is not one of the twelve,
    [add_semitones] raises [ValueError], whatever the offset, and so does
    [add_interval] for every interval of the table. *)
Theorem add_semitones_unknown_name (p : string) (o : Z) :
  p ∉ Note.NOTES ->
  (forall n, Note.add_semitones (Note.init p o) n = raise ValueError) /\
  (forall name, is_Some (Interval.SEMITONE_MAP !! name) ->
     Interval.add_interval (Note.init p o) name = raise ValueError /\
     Interval.init name (Note.init p o) = raise ValueError).
Proof. exact (unknown_name_raises p o). Qed.

Lemma add_semitones_unknown_name_witness :
  ("H" ∉ Note.NOTES) /\
  Note.add_semitones (Note.init "H" 4) 0 = raise ValueError.
Proof.
  assert (H : "H" ∉ Note.NOTES).
  { intros Hin. apply list_elem_of_In in Hin. cbn in Hin.
    repeat destruct Hin as [Hin|Hin]; try discriminate Hin. exact Hin. }
  split; [exact H|].
  apply (proj1 (add_semitones_unknown_name "H" 4 H)).
Defined.

(** ** Chords that cannot be built *)

Lemma split_two_words (p q : string) :
  Py.count " " p = 0%nat -> Py.count " " q = 0%nat ->
  Py.split " " (p +:+ " " +:+ q) = [p; q].
Proof.
  intros Hp Hq. push_append.
  rewrite (split_app_separator " " p q Hp), (split_no_separator " " q Hq).
  reflexivity.
Qed.

(** X8: how [Chord] rejects a name. A name that does not hold exactly one
    space fails the unpacking with [ValueError]. With a root and a quality
    free of spaces, a quality that is not a key of [INTERVAL_MAP] raises
    [KeyError] on that quality, and a known quality on a root that is not
    a canonical pitch class raises [ValueError]: the root is checked only
    when the first interval is added to it. *)
Theorem chord_init_errors (o : Z) :
  (forall chord_name,
      Py.count " " chord_name <> 1%nat ->
      Chord.init chord_name o = raise ValueError) /\
  (forall p q,
      Py.count " " p = 0%nat -> Py.count " " q = 0%nat ->
      Chord.INTERVAL_MAP !! q = None ->
      Chord.init (p +:+ " " +:+ q) o = raise (KeyError (AStr q))) /\
  (forall p q,
      Py.count " " p = 0%nat -> q ∈ QUALITIES -> p ∉ Note.NOTES ->
      Chord.init (p +:+ " " +:+ q) o = raise ValueError).
Proof.
  repeat split.
  - intros chord_name Hc. unfold Chord.init.
    destruct (split_pieces " " chord_name) as (Hlen & _ & _).
    destruct (Py.split " " chord_name) as [|a [|b [|c l]]]; try reflexivity.
    cbn [length] in Hlen. congruence.
  - intros p q Hp Hq Hnone. unfold Chord.init.
    rewrite (split_two_words p q Hp Hq), rbind_ok.
    unfold Py.getitem. rewrite Hnone. reflexivity.
  - intros p q Hp Hq Hbad.
    assert (Hqs : Py.count " " q = 0%nat).
    { repeat (apply elem_of_cons in Hq as [->|Hq]; [reflexivity|]).
      inversion Hq. }
    unfold Chord.init. rewrite (split_two_words p q Hp Hqs), rbind_ok.
    apply qualities_are_keys in Hq as Hkey. destruct Hkey as [l Hl].
    rewrite (getitem_some _ _ _ Hl), rbind_ok.
    assert (Hvalid : exists i l', l = i :: l' /\
                       is_Some (Interval.SEMITONE_MAP !! i)).
    { repeat (apply elem_of_cons in Hq as [->|Hq];
              [injection Hl as <-; eexists _, _; split;
               [reflexivity | by eexists]|]).
      inversion Hq. }
    destruct Hvalid as (i & l' & -> & Hi). cbn [Py.for_].
    destruct (unknown_name_raises p o Hbad) as [_ Hint].
    rewrite (proj2 (Hint i Hi)). reflexivity.
Qed.

Lemma chord_init_errors_witness :
  Py.count " " "Cmaj" <> 1%nat /\
  Chord.init "Cmaj" 4 = raise ValueError /\
  Chord.init "C aug" 4 = raise (KeyError (AStr "aug")) /\
  Chord.init "H maj" 4 = raise ValueError.
Proof.
  assert (H : Py.count " " "Cmaj" <> 1%nat) by (cbn; lia).
  destruct (chord_init_errors 4) as (E1 & E2 & E3).
  split; [exact H|]. split; [exact (E1 "Cmaj" H)|]. split.
  - apply (E2 "C" "aug"); reflexivity.
  - apply (E3 "H" "maj"); [reflexivity | apply list_elem_of_In; cbn; tauto |].
    intros Hin. apply list_elem_of_In in Hin. cbn in Hin.
    repeat destruct Hin as [Hin|Hin]; try discriminate Hin. exact Hin.
Defined.

(** ** Steps: what a poll can and cannot do *)

Lemma step_raises (s : ProgramStep.t) (w : World) (t0 : Q) :
  ProgramStep.start_time s = Some t0 ->
  Qeq_bool t0 0 = false ->
  (forall d, ProgramStep.duration s <> Atom (AInt d)) ->
  ProgramStep.step (s, w) = (raise TypeError, (s, tick w)).
Proof.
  intros Ht Hz Hd. unfold ProgramStep.step, ProgramStep.elapsed_ms.
  run_method. rewrite Ht, Hz. run_method.
  destruct (ProgramStep.duration s) as [[d|str]|l]; try reflexivity.
  by destruct (Hd d).
Qed.

Lemma step_zero_start (s : ProgramStep.t) (w : World) (t0 : Q) :
  ProgramStep.start_time s = Some t0 ->
  Qeq_bool t0 0 = true ->
  ProgramStep.step (s, w) = (raise TypeError, (s, w)).
Proof.
  intros Ht Hz. unfold ProgramStep.step, ProgramStep.elapsed_ms.
  run_method. rewrite Ht, Hz. reflexivity.
Qed.

(** X9: a poll of a step raises [TypeError], and nothing else, exactly
    when the step has no start time, or was started at a clock reading of
    zero (which [elapsed_ms] takes for no start time), or has a duration
    that is not an int. *)
Theorem step_raises_iff (s : ProgramStep.t) (w : World) :
  (fst (ProgramStep.step (s, w)) = ok tt \/
   fst (ProgramStep.step (s, w)) = raise TypeError) /\
  (fst (ProgramStep.step (s, w)) = raise TypeError <->
   ProgramStep.start_time s = None \/
   (exists t0, ProgramStep.start_time s = Some t0 /\ (t0 == 0)%Q) \/
   (forall d, ProgramStep.duration s <> Atom (AInt d))).
Proof.
  destruct (ProgramStep.start_time s) as [t0|] eqn:Ht.
  - destruct (Qeq_bool t0 0) eqn:Hz.
    + rewrite (step_zero_start s w t0 Ht Hz). split; [by right|].
      split; [|reflexivity]. intros _. right. left. exists t0.
      split; [reflexivity | by apply Qeq_bool_iff].
    + assert (Hnz : ~ (t0 == 0)%Q)
        by (intros H; apply Qeq_bool_iff in H; congruence).
      destruct (ProgramStep.duration s) as [[d|str]|l] eqn:Hd.
      * rewrite (step_started s w t0 d Ht Hz Hd). split; [by left|].
        split; [discriminate|]. intros [H|[(t & [= <-] & H)|H]];
          [discriminate | contradiction | by destruct (H d)].
      * rewrite (step_raises s w t0 Ht Hz) by (rewrite Hd; discriminate).
        split; [by right|]. split; [|reflexivity].
        intros _. right. right. discriminate.
      * rewrite (step_raises s w t0 Ht Hz) by (rewrite Hd; discriminate).
        split; [by right|]. split; [|reflexivity].
        intros _. right. right. discriminate.
  - rewrite (step_not_started s w Ht). split; [by right|].
    split; [|reflexivity]. intros _. by left.
Qed.

(** X10: a poll of a step never plays a sound, never changes what the
    step plays or for how long, reads the clock at most once, and never
    sets a step running: only [start] does. *)
Theorem step_frame (s : ProgramStep.t) (w : World) :
  let s' := fst (snd (ProgramStep.step (s, w))) in
  let w' := snd (snd (ProgramStep.step (s, w))) in
  ProgramStep.entity s' = ProgramStep.entity s /\
  ProgramStep.duration s' = ProgramStep.duration s /\
  played w' = played w /\
  clock w' = clock w /\
  (ticks w' = ticks w \/ ticks w' = S (ticks w)) /\
  (ProgramStep.is_running s' = true -> ProgramStep.is_running s = true).
Proof.
  cbv zeta. destruct (ProgramStep.start_time s) as [t0|] eqn:Ht.
  - destruct (Qeq_bool t0 0) eqn:Hz.
    + rewrite (step_zero_start s w t0 Ht Hz). cbn [fst snd]. auto 10.
    + destruct (ProgramStep.duration s) as [[d|str]|l] eqn:Hd.
      * rewrite (step_started s w t0 d Ht Hz Hd). cbn [fst snd].
        destruct (d <? _); cbn; auto 10.
        repeat split; auto. discriminate.
      * rewrite (step_raises s w t0 Ht Hz) by (rewrite Hd; discriminate).
        cbn; auto 10.
      * rewrite (step_raises s w t0 Ht Hz) by (rewrite Hd; discriminate).
        cbn; auto 10.
  - rewrite (step_not_started s w Ht). cbn [fst snd]. auto 10.
Qed.

(** X11: [start] does not look at the state of the step: whether the step
    is fresh, running or stopped, it leaves it running with the current
    clock reading as start time and hands its sound to the backend; so a
    second [start] on a running step plays the sound again and moves the
    start time to the later reading. *)
Theorem start_restarts (s : ProgramStep.t) (w : World) :
  ProgramStep.start (s, w)
  = (ok tt, (started s (clock w (ticks w)),
             {| clock := clock w; ticks := S (ticks w);
                played := played w ++ sounds_of (ProgramStep.entity s) |})) /\
  ProgramStep.start (snd (ProgramStep.start (s, w)))
  = (ok tt, (started s (clock w (S (ticks w))),
             {| clock := clock w; ticks := S (S (ticks w));
                played := (played w ++ sounds_of (ProgramStep.entity s))
                            ++ sounds_of (ProgramStep.entity s) |})).
Proof.
  split; [apply start_step|]. rewrite start_step. cbn [snd].
  rewrite start_step. reflexivity.
Qed.

(** ** Programs of any length *)





















(** ** The runner *)












(** X16: with an empty catalogue the first turn of the runner raises
    [ValueError] from [random.randint(0, -1)], before anything is started
    or printed. *)
Theorem runner_empty_catalogue (n : nat) (r : ProgramRunner.t) (w : World) :
  ProgramRunner.programs r = [] ->
  ProgramRunner.current_program r = None ->
  ProgramRunner.run (S n) (r, w) = (raise ValueError, (r, w)).
Proof.
  intros Hnil Hnone. cbn [ProgramRunner.run]. eapply bind_raise.
  unfold ProgramRunner.run_turn. erewrite bind_ok by reflexivity.
  cbn [fst]. rewrite Hnone. eapply bind_raise. eapply bind_raise.
  unfold ProgramRunner.get_random_program.
  erewrite bind_ok by reflexivity. cbn [fst]. eapply bind_raise.
  unfold ProgramRunner.randint. cbn [fst]. rewrite Hnil. reflexivity.
Qed.

Lemma runner_empty_catalogue_witness :
  ProgramRunner.programs idle_runner = [] /\
  ProgramRunner.current_program idle_runner = None /\
  ProgramRunner.run 1 (idle_runner, slow_world)
  = (raise ValueError, (idle_runner, slow_world)).
Proof.
  split; [reflexivity|]. split; [reflexivity|].
  apply (runner_empty_catalogue 0 idle_runner slow_world); reflexivity.
Defined.

(** ** What the generator builds *)

Lemma rbind_inv {A B} (m : result A) (f : A -> result B) (b : B) :
  rbind m f = ok b -> exists a, m = ok a /\ f a = ok b.
Proof. destruct m as [e|a]; [discriminate|]. intros H. by exists a. Qed.

Lemma getitem_inv {V} (d : gmap string V) (key : string) (v : V) :
  Py.getitem d key = ok v -> d !! key = Some v.
Proof.
  unfold Py.getitem. destruct (d !! key); [|discriminate]. by intros [= ->].
Qed.

(** What holds before a loop and is kept by each turn holds after it. *)
Lemma for_invariant {A S} (P : S -> Prop) (l : list A)
    (body : S -> A -> result S) :
  (forall s x s', P s -> body s x = ok s' -> P s') ->
  forall s r, P s -> Py.for_ l s body = ok r -> P r.
Proof.
  intros Hbody. induction l as [|x l IH]; intros s r Hs Hr; cbn in Hr.
  - by injection Hr as <-.
  - apply rbind_inv in Hr as (s' & Hs' & Hr). eauto.
Qed.

Section Fresh.

Variables (config : ConfigFile.t) (settings : gmap string value).
Variables (nd idur : value).

Hypothesis Hsettings : config !! "settings" = Some settings.
Hypothesis Hnd : settings !! "note_duration" = Some nd.
Hypothesis Hidur : settings !! "identity_duration" = Some idur.

Let P (l : list Program.t) : Prop := Forall (fresh_program nd idur) l.

Lemma fresh_snoc (l : list Program.t) (name : string)
    (steps : list ProgramStep.t) :
  P l -> steps <> [] -> Forall (fresh_step nd idur) steps ->
  P (l ++ [Program.init name steps]).
Proof.
  intros Hl Hne Hsteps. apply Forall_app. split; [exact Hl|].
  constructor; [|constructor]. by repeat split.
Qed.

Lemma fresh_init_nd (k : ProgramStep.kind) :
  fresh_step nd idur (ProgramStep.init k nd).
Proof. split; [reflexivity | by left]. Qed.

Lemma fresh_init_idur (k : ProgramStep.kind) :
  fresh_step nd idur (ProgramStep.init k idur).
Proof. split; [reflexivity | by right]. Qed.

Lemma read_note_programs_fresh (l : list Program.t) :
  ConfigFile.read_note_programs config = ok l -> P l.
Proof.
  unfold ConfigFile.read_note_programs. intros H.
  apply rbind_inv in H as (v & _ & H).
  rewrite (settings_ok _ _ Hsettings), rbind_ok in H.
  rewrite (getitem_some _ _ _ Hnd), rbind_ok, rbind_ok in H.
  rewrite (getitem_some _ _ _ Hidur), rbind_ok in H.
  apply rbind_inv in H as (names & _ & H).
  revert H. apply for_invariant; [|constructor].
  intros s x s' Hs H. apply rbind_inv in H as (octaves & _ & H).
  revert H. apply for_invariant; [|exact Hs].
  clear s s' Hs. intros s o s' Hs H.
  apply rbind_inv in H as (note & _ & H). injection H as <-.
  apply fresh_snoc; [exact Hs | discriminate |].
  constructor; [apply fresh_init_nd|].
  constructor; [apply fresh_init_idur | constructor].
Qed.

Lemma read_interval_programs_fresh (l : list Program.t) :
  ConfigFile.read_interval_programs config = ok l -> P l.
Proof.
  unfold ConfigFile.read_interval_programs. intros H.
  apply rbind_inv in H as (v & _ & H).
  rewrite (settings_ok _ _ Hsettings), rbind_ok in H.
  rewrite (getitem_some _ _ _ Hnd), rbind_ok, rbind_ok in H.
  rewrite (getitem_some _ _ _ Hidur), rbind_ok in H.
  apply rbind_inv in H as (names & _ & H).
  revert H. apply for_invariant; [|constructor].
  intros s x s' Hs H. revert H. apply for_invariant; [|exact Hs].
  clear s s' Hs. intros s p s' Hs H.
  apply rbind_inv in H as (octaves & _ & H).
  revert H. apply for_invariant; [|exact Hs].
  clear s s' Hs. intros s o s' Hs H.
  apply rbind_inv in H as (interval & _ & H). injection H as <-.
  apply fresh_snoc; [exact Hs | discriminate |].
  constructor; [apply fresh_init_nd|].
  constructor; [apply fresh_init_nd|].
  constructor; [apply fresh_init_idur | constructor].
Qed.

Lemma read_chord_programs_fresh (l : list Program.t) :
  ConfigFile.read_chord_programs config = ok l -> P l.
Proof.
  unfold ConfigFile.read_chord_programs. intros H.
  apply rbind_inv in H as (v & _ & H).
  rewrite (settings_ok _ _ Hsettings), rbind_ok in H.
  rewrite (getitem_some _ _ _ Hnd), rbind_ok, rbind_ok in H.
  rewrite (getitem_some _ _ _ Hidur), rbind_ok in H.
  apply rbind_inv in H as (names & _ & H).
  revert H. apply for_invariant; [|constructor].
  intros s x s' Hs H. revert H. apply for_invariant; [|exact Hs].
  clear s s' Hs. intros s p s' Hs H. cbv zeta in H.
  apply rbind_inv in H as (octaves & _ & H).
  revert H. apply for_invariant; [|exact Hs].
  clear s s' Hs. intros s o s' Hs H.
  apply rbind_inv in H as (chord & _ & H). injection H as <-.
  apply fresh_snoc; [exact Hs | discriminate |].
  constructor; [apply fresh_init_nd|].
  constructor; [apply fresh_init_idur | constructor].
Qed.

End Fresh.

Lemma read_programs_settings (config : ConfigFile.t) (l : list Program.t) :
  ConfigFile.read_programs config = ok l ->
  exists settings nd idur,
    config !! "settings" = Some settings /\
    settings !! "note_duration" = Some nd /\
    settings !! "identity_duration" = Some idur.
Proof.
  unfold ConfigFile.read_programs. intros H.
  apply rbind_inv in H as (np & H & _).
  unfold ConfigFile.read_note_programs in H.
  apply rbind_inv in H as (v & _ & H).
  apply rbind_inv in H as (settings & Hs & H).
  apply rbind_inv in H as (nd & Hnd & H).
  apply rbind_inv in H as (settings' & Hs' & H).
  apply rbind_inv in H as (idur & Hidur & _).
  rewrite Hs in Hs'. injection Hs' as <-.
  exists settings, nd, idur. unfold ConfigFile.settings in Hs.
  auto using getitem_inv.
Qed.

Lemma read_programs_fresh (config : ConfigFile.t) (l : list Program.t) :
  ConfigFile.read_programs config = ok l ->
  exists settings nd idur,
    config !! "settings" = Some settings /\
    settings !! "note_duration" = Some nd /\
    settings !! "identity_duration" = Some idur /\
    Forall (fresh_program nd idur) l.
Proof.
  intros H.
  destruct (read_programs_settings config l H)
    as (settings & nd & idur & Hs & Hnd & Hidur).
  exists settings, nd, idur. repeat (split; [assumption|]).
  unfold ConfigFile.read_programs in H.
  apply rbind_inv in H as (np & Hnp & H).
  apply rbind_inv in H as (ip & Hip & H).
  apply rbind_inv in H as (cp & Hcp & H). injection H as <-.
  rewrite !Forall_app. repeat split.
  - by apply (read_note_programs_fresh config settings).
  - by apply (read_interval_programs_fresh config settings).
  - by apply (read_chord_programs_fresh config settings).
Qed.

(** X17: whenever the generator returns a catalogue, every program in it
    is as its constructor made it (not running, cursor at [-1], no
    current step), has at least one step, and each of its steps is
    unstarted and lasts the configured note duration or the configured
    identity duration, whatever those two values are: they are not
    checked to be ints. *)
Theorem generated_programs_fresh (config : ConfigFile.t)
    (l : list Program.t) :
  ConfigFile.read_programs config = ok l ->
  exists settings nd idur,
    config !! "settings" = Some settings /\
    settings !! "note_duration" = Some nd /\
    settings !! "identity_duration" = Some idur /\
    Forall (fresh_program nd idur) l.
Proof. exact (read_programs_fresh config l). Qed.

Lemma generated_programs_fresh_witness :
  exists l settings nd idur,
    ConfigFile.read_programs demo_config = ok l /\
    length l = 28%nat /\
    demo_config !! "settings" = Some settings /\
    settings !! "note_duration" = Some nd /\
    settings !! "identity_duration" = Some idur /\
    Forall (fresh_program nd idur) l.
Proof.
  destruct (ConfigFile.read_programs demo_config) as [e|l] eqn:E;
    [vm_compute in E; discriminate|].
  destruct (generated_programs_fresh demo_config l E)
    as (settings & nd & idur & H).
  exists l, settings, nd, idur. split; [reflexivity|]. split; [|exact H].
  vm_compute in E. injection E as <-. reflexivity.
Defined.




(** ** Configurations the generator does not check *)

(** A loop whose body returns what it was given returns what it was
    given. *)
Lemma for_skip {A S} (l : list A) (body : S -> A -> result S) :
  (forall s x, body s x = ok s) -> forall s, Py.for_ l s body = ok s.
Proof.
  intros Hbody. induction l as [|x l IH]; intros s; [reflexivity|].
  cbn [Py.for_]. by rewrite Hbody, rbind_ok.
Qed.

Lemma range_empty (a b : Z) : b <= a -> Py.range a b = [].
Proof.
  intros H. unfold Py.range. by replace (Z.to_nat (b - a)) with 0%nat by lia.
Qed.

(** X19: with an empty octave range ([end < start]) the generator returns
    an empty catalogue whatever the three sections list: no name in them
    is ever looked at, so unknown intervals, unknown qualities and items
    that are not strings all pass unnoticed. *)
Theorem empty_range_empty_catalogue (config : ConfigFile.t)
    (settings programs : gmap string value) (a b : Z) (rest : list atom)
    (nd idur : value) (notes intervals chords : list atom) :
  config !! "settings" = Some settings ->
  settings !! "octave_range" = Some (Array (AInt a :: AInt b :: rest)) ->
  settings !! "note_duration" = Some nd ->
  settings !! "identity_duration" = Some idur ->
  config !! "programs" = Some programs ->
  programs !! "notes" = Some (Array notes) ->
  programs !! "intervals" = Some (Array intervals) ->
  programs !! "chords" = Some (Array chords) ->
  b < a ->
  ConfigFile.read_programs config = ok [].
Proof.
  intros Hs Hr Hnd Hid Hp Hn Hi Hc Hba.
  assert (Hrange : ConfigFile.octave_range config = ok []).
  { rewrite (octave_range_ok config settings a b rest Hs Hr).
    by rewrite range_empty by lia. }
  unfold ConfigFile.read_programs.
  unfold ConfigFile.read_note_programs, ConfigFile.read_interval_programs,
    ConfigFile.read_chord_programs.
  rewrite (programs_of_ok config programs Hp _ _ Hn).
  rewrite (programs_of_ok config programs Hp _ _ Hi).
  rewrite (programs_of_ok config programs Hp _ _ Hc).
  rewrite (settings_ok config settings Hs), !rbind_ok.
  rewrite (getitem_some _ _ _ Hnd), !rbind_ok.
  rewrite (getitem_some _ _ _ Hid), !rbind_ok.
  cbn [Py.iter]. rewrite !rbind_ok. cbv zeta.
  rewrite for_skip, rbind_ok
    by (intros s x; rewrite Hrange; reflexivity).
  rewrite for_skip, rbind_ok
    by (intros s x; apply for_skip; intros s' y; rewrite Hrange; reflexivity).
  rewrite for_skip, rbind_ok
    by (intros s x; apply for_skip; intros s' y; rewrite Hrange; reflexivity).
  reflexivity.
Qed.

Lemma empty_range_empty_catalogue_witness :
  4 < 5 /\ ConfigFile.read_programs reversed_config = ok [].
Proof.
  split; [lia|].
  apply (empty_range_empty_catalogue reversed_config reversed_settings
           bogus_programs 5 4 [] (Atom (AInt 1000)) (Atom (AInt 1500))
           [AInt 7] [AStr "5th"; AStr "9th"; AInt 0]
           [AStr "min"; AStr "aug"]); first [reflexivity | lia].
Defined.

Lemma for_app {A S} (l1 l2 : list A) (s : S) (body : S -> A -> result S) :
  Py.for_ (l1 ++ l2) s body
  = rbind (Py.for_ l1 s body) (fun s' => Py.for_ l2 s' body).
Proof.
  revert s. induction l1 as [|x l1 IH]; intros s; [reflexivity|].
  cbn [app Py.for_]. destruct (body s x) as [e|s']; [reflexivity|].
  cbn [rbind]. apply IH.
Qed.

Lemma range_cons (a b : Z) : a < b -> exists tl, Py.range a b = a :: tl.
Proof.
  intros H. unfold Py.range.
  destruct (Z.to_nat (b - a)) as [|m] eqn:E; [lia|].
  cbn [seq map]. rewrite Z.add_0_r. eauto.
Qed.

Section UnknownNames.

Variables (config : ConfigFile.t) (settings programs : gmap string value).
Variables (a b : Z) (rest : list atom) (nd idur : value).

Hypothesis Hsettings : config !! "settings" = Some settings.
Hypothesis Hrange :
  settings !! "octave_range" = Some (Array (AInt a :: AInt b :: rest)).
Hypothesis Hnd : settings !! "note_duration" = Some nd.
Hypothesis Hidur : settings !! "identity_duration" = Some idur.
Hypothesis Hprograms : config !! "programs" = Some programs.
Hypothesis Hab : a <= b.

Lemma unknown_interval_raises (pre : list string) (bad : string)
    (post : list atom) :
  programs !! "intervals"
  = Some (Array ((AStr <$> pre) ++ AStr bad :: post)) ->
  (forall i, i ∈ pre -> is_Some (Interval.SEMITONE_MAP !! i)) ->
  Interval.SEMITONE_MAP !! bad = None ->
  ConfigFile.read_interval_programs config = raise (KeyError (AStr bad)).
Proof.
  intros H Hpre Hbad. unfold ConfigFile.read_interval_programs.
  rewrite (programs_of_ok config programs Hprograms _ _ H), rbind_ok.
  rewrite (settings_ok config settings Hsettings), rbind_ok.
  rewrite (getitem_some _ _ _ Hnd), rbind_ok, rbind_ok.
  rewrite (getitem_some _ _ _ Hidur), rbind_ok.
  cbn [Py.iter]. rewrite rbind_ok. cbv zeta. rewrite for_app.
  match goal with
  | |- rbind (Py.for_ _ _ ?body) _ = _ =>
      destruct (for_length (AStr <$> pre) (12 * octaves a b)
                  (length (AStr <$> pre) * (12 * octaves a b)) body eq_refl)
        with (acc := @nil Program.t) as (zs & -> & _)
  end.
  { intros acc x Hx. apply list_elem_of_fmap in Hx as (i & -> & Hi).
    apply (for_length _ (octaves a b)); [reflexivity|].
    intros acc' p Hp.
    rewrite (octave_range_ok config settings a b rest Hsettings Hrange),
      rbind_ok.
    apply (for_length _ 1);
      [rewrite (range_length a b); lia|].
    intros acc'' o _. cbn [ConfigFile.make_interval].
    destruct (interval_init_ok i p o (Hpre i Hi) Hp) as [v ->].
    rewrite rbind_ok. eexists. split; reflexivity. }
  rewrite rbind_ok. cbn [Py.for_].
  change Note.NOTES with ("C" :: tl Note.NOTES). cbn [Py.for_].
  rewrite (octave_range_ok config settings a b rest Hsettings Hrange),
    rbind_ok.
  destruct (range_cons a (b + 1)) as [octs ->]; [lia|]. cbn [Py.for_].
  cbn [ConfigFile.make_interval].
  unfold Interval.init, Interval.add_interval, Interval.semitones,
    Py.getitem.
  rewrite Hbad. reflexivity.
Qed.

Lemma unknown_quality_raises (pre : list string) (bad : string)
    (post : list atom) :
  programs !! "chords" = Some (Array ((AStr <$> pre) ++ AStr bad :: post)) ->
  (forall c, c ∈ pre -> c ∈ QUALITIES) ->
  Py.count " " bad = 0%nat ->
  Chord.INTERVAL_MAP !! bad = None ->
  ConfigFile.read_chord_programs config = raise (KeyError (AStr bad)).
Proof.
  intros H Hpre Hspace Hbad. unfold ConfigFile.read_chord_programs.
  rewrite (programs_of_ok config programs Hprograms _ _ H), rbind_ok.
  rewrite (settings_ok config settings Hsettings), rbind_ok.
  rewrite (getitem_some _ _ _ Hnd), rbind_ok, rbind_ok.
  rewrite (getitem_some _ _ _ Hidur), rbind_ok.
  cbn [Py.iter]. rewrite rbind_ok. cbv zeta. rewrite for_app.
  match goal with
  | |- rbind (Py.for_ _ _ ?body) _ = _ =>
      destruct (for_length (AStr <$> pre) (12 * octaves a b)
                  (length (AStr <$> pre) * (12 * octaves a b)) body eq_refl)
        with (acc := @nil Program.t) as (zs & -> & _)
  end.
  { intros acc x Hx. apply list_elem_of_fmap in Hx as (c & -> & Hc).
    apply (for_length _ (octaves a b)); [reflexivity|].
    intros acc' p Hp.
    rewrite (octave_range_ok config settings a b rest Hsettings Hrange),
      rbind_ok.
    apply (for_length _ 1);
      [rewrite (range_length a b); lia|].
    intros acc'' o _. cbn [Py.str].
    destruct (chord_init_notes c p o (Hpre c Hc) Hp)
      as (i1 & i2 & n1 & n2 & _ & _ & _ & ->).
    rewrite rbind_ok. eexists. split; reflexivity. }
  rewrite rbind_ok. cbn [Py.for_].
  change Note.NOTES with ("C" :: tl Note.NOTES). cbn [Py.for_].
  rewrite (octave_range_ok config settings a b rest Hsettings Hrange),
    rbind_ok.
  destruct (range_cons a (b + 1)) as [octs ->]; [lia|]. cbn [Py.for_ Py.str].
  unfold Chord.init.
  rewrite (split_two_words "C" bad eq_refl Hspace), rbind_ok.
  unfold Py.getitem. rewrite Hbad. reflexivity.
Qed.

End UnknownNames.

(** X20: with a non-empty octave range, the first interval name that is
    not in [SEMITONE_MAP] makes the interval reader raise [KeyError] on
    that name, and the first chord quality that is free of spaces and not
    in [INTERVAL_MAP] makes the chord reader raise [KeyError] on it; the
    programs built for the names before it are lost, and what follows the
    name is never looked at. *)
Theorem unknown_name_key_error (config : ConfigFile.t)
    (settings programs : gmap string value) (a b : Z) (rest : list atom)
    (nd idur : value) :
  config !! "settings" = Some settings ->
  settings !! "octave_range" = Some (Array (AInt a :: AInt b :: rest)) ->
  settings !! "note_duration" = Some nd ->
  settings !! "identity_duration" = Some idur ->
  config !! "programs" = Some programs ->
  a <= b ->
  (forall (pre : list string) (bad : string) (post : list atom),
     programs !! "intervals"
     = Some (Array ((AStr <$> pre) ++ AStr bad :: post)) ->
     (forall i, i ∈ pre -> is_Some (Interval.SEMITONE_MAP !! i)) ->
     Interval.SEMITONE_MAP !! bad = None ->
     ConfigFile.read_interval_programs config
     = raise (KeyError (AStr bad))) /\
  (forall (pre : list string) (bad : string) (post : list atom),
     programs !! "chords"
     = Some (Array ((AStr <$> pre) ++ AStr bad :: post)) ->
     (forall c, c ∈ pre -> c ∈ QUALITIES) ->
     Py.count " " bad = 0%nat ->
     Chord.INTERVAL_MAP !! bad = None ->
     ConfigFile.read_chord_programs config = raise (KeyError (AStr bad))).
Proof.
  intros Hs Hr Hnd Hid Hp Hab. split; intros pre bad post.
  - by apply (unknown_interval_raises config settings programs a b rest
                nd idur).
  - by apply (unknown_quality_raises config settings programs a b rest
                nd idur).
Qed.

Lemma unknown_name_key_error_witness :
  ConfigFile.read_interval_programs bogus_config
  = raise (KeyError (AStr "9th")) /\
  ConfigFile.read_chord_programs bogus_config
  = raise (KeyError (AStr "aug")).
Proof.
  destruct (unknown_name_key_error bogus_config demo_settings bogus_programs
              3 4 [] (Atom (AInt 1000)) (Atom (AInt 1500))
              eq_refl eq_refl eq_refl eq_refl eq_refl)
    as [HI HC]; [discriminate|].
  split.
  - apply (HI ["5th"] "9th" [AInt 0]); [reflexivity| |reflexivity].
    intros i Hi. apply list_elem_of_singleton in Hi as ->.
    eexists. reflexivity.
  - apply (HC ["min"] "aug" []); [reflexivity| |reflexivity|reflexivity].
    intros c Hc. apply list_elem_of_singleton in Hc as ->.
    unfold QUALITIES. set_solver.
Defined.

(** ** What the generator reads, and when *)

Lemma for_collect {A B} (l : list A) (g : A -> list B)
    (body : list B -> A -> result (list B)) :
  (forall acc x, x ∈ l -> body acc x = ok (acc ++ g x)%list) ->
  forall acc, Py.for_ l acc body = ok (acc ++ concat (g <$> l))%list.
Proof.
  induction l as [|x l IH]; intros Hbody acc.
  - cbn. by rewrite app_nil_r.
  - cbn [Py.for_]. rewrite Hbody by left. cbn [rbind fmap list_fmap concat].
    change (ok ?v) with (@inr exn _ v). cbn [rbind].
    rewrite IH by (intros; apply Hbody; by right).
    by rewrite <- app_assoc.
Qed.

(** X21: the note reader returns one program per listed name and octave,
    name by name in the order of the list and, within a name, octave by
    octave upwards from the first bound to the second, both included; the
    program is called "Note - " followed by the name and the octave and
    has two steps, the note for [note_duration] and then the spoken name
    for [identity_duration].  The names are not checked against the
    chromatic scale. *)
Theorem note_catalogue_order (config : ConfigFile.t)
    (settings programs : gmap string value) (a b : Z) (rest : list atom)
    (nd idur : value) (names : list string) :
  config !! "settings" = Some settings ->
  settings !! "octave_range" = Some (Array (AInt a :: AInt b :: rest)) ->
  settings !! "note_duration" = Some nd ->
  settings !! "identity_duration" = Some idur ->
  config !! "programs" = Some programs ->
  programs !! "notes" = Some (Array (AStr <$> names)) ->
  ConfigFile.read_note_programs config
  = ok (concat ((fun name => note_program nd idur name <$> Py.range a (b + 1))
                  <$> names)).
Proof.
  intros Hs Hr Hnd Hid Hp Hn. unfold ConfigFile.read_note_programs.
  rewrite (programs_of_ok config programs Hp _ _ Hn), rbind_ok.
  rewrite (settings_ok config settings Hs), rbind_ok.
  rewrite (getitem_some _ _ _ Hnd), rbind_ok, rbind_ok.
  rewrite (getitem_some _ _ _ Hid), rbind_ok.
  cbn [Py.iter]. rewrite rbind_ok. cbv zeta.
  erewrite (for_collect (AStr <$> names)
              (fun x => note_program nd idur (Py.str x)
                          <$> Py.range a (b + 1))).
  - cbn [app]. f_equal. rewrite <- list_fmap_compose. reflexivity.
  - intros acc x Hx. apply list_elem_of_fmap in Hx as (name & -> & _).
    rewrite (octave_range_ok config settings a b rest Hs Hr), rbind_ok.
    rewrite (for_collect (Py.range a (b + 1))
               (fun o => [note_program nd idur name o])).
    + f_equal. f_equal. induction (Py.range a (b + 1)) as [|o l IH];
        [reflexivity|]. cbn. by rewrite IH.
    + intros acc' o _. cbn [ConfigFile.make_note]. rewrite rbind_ok.
      reflexivity.
Qed.

Lemma note_catalogue_order_witness :
  ConfigFile.read_note_programs demo_config
  = ok [note_program (Atom (AInt 1000)) (Atom (AInt 1500)) "C" 3;
        note_program (Atom (AInt 1000)) (Atom (AInt 1500)) "C" 4;
        note_program (Atom (AInt 1000)) (Atom (AInt 1500)) "F#" 3;
        note_program (Atom (AInt 1000)) (Atom (AInt 1500)) "F#" 4].
Proof.
  exact (note_catalogue_order demo_config demo_settings demo_programs 3 4 []
           (Atom (AInt 1000)) (Atom (AInt 1500)) ["C"; "F#"]
           eq_refl eq_refl eq_refl eq_refl eq_refl eq_refl).
Defined.

(** X22: the octave range is looked up inside the loops, the two
    durations before them.  With all three sections empty the catalogue
    is empty whether or not the settings have an octave range; without a
    note duration every reader raises [KeyError], empty sections or not. *)
Theorem octave_range_read_lazily (config : ConfigFile.t)
    (settings programs : gmap string value) :
  config !! "settings" = Some settings ->
  config !! "programs" = Some programs ->
  programs !! "notes" = Some (Array []) ->
  programs !! "intervals" = Some (Array []) ->
  programs !! "chords" = Some (Array []) ->
  (is_Some (settings !! "note_duration") ->
   is_Some (settings !! "identity_duration") ->
   ConfigFile.read_programs config = ok []) /\
  (settings !! "note_duration" = None ->
   ConfigFile.read_note_programs config
   = raise (KeyError (AStr "note_duration")) /\
   ConfigFile.read_interval_programs config
   = raise (KeyError (AStr "note_duration")) /\
   ConfigFile.read_chord_programs config
   = raise (KeyError (AStr "note_duration")) /\
   ConfigFile.read_programs config
   = raise (KeyError (AStr "note_duration"))).
Proof.
  intros Hs Hp Hn Hi Hc.
  unfold ConfigFile.read_programs, ConfigFile.read_note_programs,
    ConfigFile.read_interval_programs, ConfigFile.read_chord_programs.
  rewrite (programs_of_ok config programs Hp _ _ Hn).
  rewrite (programs_of_ok config programs Hp _ _ Hi).
  rewrite (programs_of_ok config programs Hp _ _ Hc).
  rewrite (settings_ok config settings Hs), !rbind_ok.
  split.
  - intros [nd Hnd] [idur Hid].
    rewrite (getitem_some _ _ _ Hnd), !rbind_ok.
    rewrite (getitem_some _ _ _ Hid), !rbind_ok.
    reflexivity.
  - intros Hnd. unfold Py.getitem. rewrite Hnd. by repeat split.
Qed.

Lemma octave_range_read_lazily_witness :
  rangeless_settings !! "octave_range" = None /\
  ConfigFile.read_programs rangeless_config = ok [] /\
  ConfigFile.read_programs unset_config
  = raise (KeyError (AStr "note_duration")).
Proof.
  split; [reflexivity|]. split.
  - apply (octave_range_read_lazily rangeless_config rangeless_settings
             empty_programs eq_refl eq_refl eq_refl eq_refl eq_refl);
      eexists; reflexivity.
  - apply (octave_range_read_lazily unset_config ∅
             empty_programs eq_refl eq_refl eq_refl eq_refl eq_refl).
    reflexivity.
Defined.
